(** * The manager service of the tunnel client: update scheduler and IPC server

    A shallow embedding of package [managers] (the update-state loop with
    its jittered sleeps, and the IPC server with its session registry and
    notification fan-out), followed by the properties of the control channel
    that the specification states about them. *)

From Stdlib Require Import ZArith Lia.
From stdpp Require Import strings gmap list functions.

(** ** Durations

    [time.Duration] is an [int64] count of nanoseconds.  Arithmetic on it
    wraps around; [wrap64] is that wrap, written out at every operation. *)

Module Time.
Local Open Scope Z_scope.

Definition Duration := Z.

Definition wrap64 (z : Z) : Z := (z + 2 ^ 63) mod 2 ^ 64 - 2 ^ 63.

(** Conversion of an integer to [uint32]. *)
Definition to_uint32 (z : Z) : Z := z mod 2 ^ 32.

Definition Nanosecond : Duration := 1.
Definition Microsecond : Duration := 1000 * Nanosecond.
Definition Millisecond : Duration := 1000 * Microsecond.
Definition Second : Duration := 1000 * Millisecond.
Definition Minute : Duration := 60 * Second.
Definition Hour : Duration := 60 * Minute.

Definition in_int64 (z : Z) : Prop := - 2 ^ 63 <= z < 2 ^ 63.

(** [runtime.fastrandn n], as the Go runtime computes it from its next
    32-bit random word [r]: the high word of the 64-bit product [r * n].
    The result is below [n], and is [0] when [n] is [0]. *)
Definition fastrandn (r : Z) (n : Z) : Z :=
  Z.shiftr (to_uint32 r * n) 32.

(** The argument of [time.Sleep] in [jitterSleep min max], for the random
    word [r]:
    [min + time.Millisecond*time.Duration(fastrandn(uint32((max-min+1)/time.Millisecond)))].
    Go's [/] on integers truncates toward zero ([Z.quot]). *)
Definition jitterSpan (min max : Duration) : Z :=
  to_uint32 (Z.quot (wrap64 (wrap64 (max - min) + 1)) Millisecond).

Definition jitterDuration (r : Z) (min max : Duration) : Duration :=
  wrap64 (min + wrap64 (Millisecond * fastrandn r (jitterSpan min max))).

(** The least random word for which [fastrandn _ n] is at least [k]:
    [k * 2 ^ 32 / n], rounded up. *)
Definition firstWord (n k : Z) : Z := (k * 2 ^ 32 + n - 1) / n.

End Time.

(** ** The manager's process-wide state

    The package keeps its state in globals: [updateState], the registry
    [managerServices], the flag [haveQuit] and the channel
    [quitManagersChan].  They are the fields of [state], next to the
    session objects the registry points to, the goroutines started with
    [go] and not yet run, and the calls made to the collaborators of the
    package ([trace], in program order). *)

Module Managers.
Import Time.
Local Open Scope Z_scope.

(** The address of a [ManagerService] object and an open [*os.File]. *)
Definition ptr := positive.
Definition handle := positive.

(** [type UpdateState uint32] and its three [iota] constants. *)
Definition UpdateState := Z.
Definition UpdateStateUnknown : UpdateState := 0.
Definition UpdateStateFoundUpdate : UpdateState := 1.
Definition UpdateStateUpdatesDisabledUnofficialBuild : UpdateState := 2.

(** A non-nil Go [error]: a system error number ([syscall.Errno]) or any
    other error, known by its message. *)
Inductive error :=
| Errno (code : Z)
| ErrorString (msg : string).

(** [windows.ERROR_ACCESS_DENIED] *)
Definition ERROR_ACCESS_DENIED : error := Errno 5.

(** What one [Encode] call of a gob encoder puts on a stream, and what one
    [Decode] call takes from it: a value of a basic type. *)
Inductive gobv :=
| GInt (z : Z)
| GUint (z : Z)
| GBool (b : bool)
| GString (s : string).

(** The session object:
    [type ManagerService struct { events *os.File; eventLock sync.Mutex; elevatedToken windows.Token }].
    A nil [events] is [None]. *)
Record ManagerService := mkManagerService {
  events : option handle;
  elevatedToken : Z
}.

(** Modelled from the spec: [updater.DownloadProgress] is declared outside
    src; its fields are those of the UpdateProgress notification,
    (activity, bytesDownloaded, bytesTotal, error, complete). *)
Record DownloadProgress := mkDownloadProgress {
  Activity : string;
  BytesDownloaded : Z;
  BytesTotal : Z;
  Error : option error;
  Complete : bool
}.

(** The constants of [MethodType] and [NotificationType] that the server
    names; their declaration is outside src, so they are taken as given. *)
Class IpcTypes := {
  QuitMethodType : Z;
  UpdateStateMethodType : Z;
  UpdateMethodType : Z;
  UpdateFoundNotificationType : Z;
  UpdateProgressNotificationType : Z;
  ManagerStoppingNotificationType : Z
}.

(** What the server takes from outside the package: the message of a system
    error number ([syscall.Errno.Error]) and the values that the channel
    returned by [updater.DownloadVerifyAndExecute] delivers for a token. *)
Class Collaborators := {
  errnoError : Z -> string;
  DownloadVerifyAndExecute : Z -> list DownloadProgress
}.

Inductive event :=
| EvSleep (d : Duration)
| EvCheckForUpdate
| EvDownloadVerifyAndExecute (token : Z)
| EvNotifyAll (notificationType : Z) (adminOnly : bool) (ifaces : list gobv)
| EvWrite (m : ptr) (f : handle) (buf : list gobv).

(** A goroutine started with [go]: the delivery closure of [notifyAll] for
    session [m], or the relay closure of [Update] over a progress channel. *)
Inductive goroutine :=
| GoDeliver (m : ptr) (buf : list gobv)
| GoRelay (progress : list DownloadProgress).

Record state := mkState {
  updateState : UpdateState;
  objects : ptr -> ManagerService;
  managerServices : gmap ptr bool;
  haveQuit : Z;
  quitManagersChan : nat;
  goroutines : list goroutine;
  fastrandCalls : nat;
  trace : list event
}.

(** [quitManagersChan = make(chan struct{}, 1)] *)
Definition quitManagersChan_cap : nat := 1.

Definition initial (objs : ptr -> ManagerService) : state :=
  mkState UpdateStateUnknown objs ∅ 0 0 [] 0 [].

Definition set_updateState (u : UpdateState) (st : state) : state :=
  mkState u (objects st) (managerServices st) (haveQuit st)
          (quitManagersChan st) (goroutines st) (fastrandCalls st) (trace st).

Definition set_objects (o : ptr -> ManagerService) (st : state) : state :=
  mkState (updateState st) o (managerServices st) (haveQuit st)
          (quitManagersChan st) (goroutines st) (fastrandCalls st) (trace st).

Definition set_managerServices (r : gmap ptr bool) (st : state) : state :=
  mkState (updateState st) (objects st) r (haveQuit st)
          (quitManagersChan st) (goroutines st) (fastrandCalls st) (trace st).

Definition set_haveQuit (q : Z) (st : state) : state :=
  mkState (updateState st) (objects st) (managerServices st) q
          (quitManagersChan st) (goroutines st) (fastrandCalls st) (trace st).

Definition set_quitManagersChan (n : nat) (st : state) : state :=
  mkState (updateState st) (objects st) (managerServices st) (haveQuit st)
          n (goroutines st) (fastrandCalls st) (trace st).

Definition spawn (gs : list goroutine) (st : state) : state :=
  mkState (updateState st) (objects st) (managerServices st) (haveQuit st)
          (quitManagersChan st) (goroutines st ++ gs) (fastrandCalls st)
          (trace st).

Definition set_fastrandCalls (n : nat) (st : state) : state :=
  mkState (updateState st) (objects st) (managerServices st) (haveQuit st)
          (quitManagersChan st) (goroutines st) n (trace st).

Definition log (e : event) (st : state) : state :=
  mkState (updateState st) (objects st) (managerServices st) (haveQuit st)
          (quitManagersChan st) (goroutines st) (fastrandCalls st)
          (trace st ++ [e]).

(** The outcome of a call: it returns a value in a new state, or it parks
    its goroutine for good on a channel operation that cannot proceed. *)
Inductive result (A : Type) :=
| Ret (a : A) (st : state)
| Blocked (st : state).
Arguments Ret {A} a st.
Arguments Blocked {A} st.

Definition bind {A B : Type} (r : result A) (k : A -> state -> result B)
  : result B :=
  match r with
  | Ret a st => k a st
  | Blocked st => Blocked st
  end.

(** *** Quit *)

(** [atomic.CompareAndSwapUint32(&haveQuit, old, new)] *)
Definition CompareAndSwap_haveQuit (old new : Z) (st : state) : bool * state :=
  if haveQuit st =? old then (true, set_haveQuit new st) else (false, st).

(** The block that [Quit] and the goroutine of [IPCServerListen] share:
    under [managerServicesLock], clear [s.events] (under [s.eventLock]) and
    [delete(managerServices, s)]. *)
Definition removeFromNotifications (s : ptr) (st : state) : state :=
  let st1 :=
    set_objects (<[s := mkManagerService None (elevatedToken (objects st s))]>
                   (objects st)) st in
  set_managerServices (delete s (managerServices st1)) st1.

(** [quitManagersChan <- struct{}{}] *)
Definition send_quitManagersChan (st : state) : result unit :=
  if (quitManagersChan st <? quitManagersChan_cap)%nat
  then Ret tt (set_quitManagersChan (S (quitManagersChan st)) st)
  else Blocked st.

(** [func (s *ManagerService) Quit(stopTunnelsOnQuit bool) (alreadyQuit bool, err error)].
    With [stopTunnelsOnQuit] the source only writes a log line. *)
Definition ManagerService_Quit (s : ptr) (stopTunnelsOnQuit : bool)
    (st : state) : result (bool * option error) :=
  if elevatedToken (objects st s) =? 0 then
    Ret (false, Some ERROR_ACCESS_DENIED) st
  else
    let '(swapped, st1) := CompareAndSwap_haveQuit 0 1 st in
    if negb swapped then Ret (true, None) st1
    else
      let st2 := removeFromNotifications s st1 in
      bind (send_quitManagersChan st2) (fun _ st3 => Ret (false, None) st3).

(** [func (s *ManagerService) UpdateState() UpdateState] *)
Definition ManagerService_UpdateState (s : ptr) (st : state)
  : result UpdateState :=
  Ret (updateState st) st.

(** *** Notifications *)

(** [errToString] *)
Definition errToString `{Collaborators} (err : option error) : string :=
  match err with
  | None => EmptyString
  | Some (Errno code) => errnoError code
  | Some (ErrorString msg) => msg
  end.

(** The sessions for which the loop of [notifyAll] starts a delivery: those
    of the registry, less the ones with a zero token when [adminOnly].  Go
    ranges over a map in no fixed order; the deliveries run on their own
    goroutines, so the order of this list carries no meaning. *)
Definition notifyTargets (adminOnly : bool) (st : state) : list ptr :=
  filter (fun m => negb ((elevatedToken (objects st m) =? 0) && adminOnly) = true)
         (map_to_list (managerServices st)).*1.

(** [notifyAll]: nothing on an empty registry; otherwise the notification
    type and then each of [ifaces] are encoded into one buffer, and one
    delivery goroutine per target gets it.  Encoding values of basic types
    into a memory buffer does not fail.  The call and its arguments go onto
    the trace. *)
Definition notifyAll (notificationType : Z) (adminOnly : bool)
    (ifaces : list gobv) (st : state) : result unit :=
  let st0 := log (EvNotifyAll notificationType adminOnly ifaces) st in
  if decide (size (managerServices st0) = 0%nat) then Ret tt st0
  else
    let buf := GInt notificationType :: ifaces in
    Ret tt (spawn ((fun m => GoDeliver m buf) <$> notifyTargets adminOnly st0)
                  st0).

(** The closure that [notifyAll] starts for [m]: under [m.eventLock], if
    [m.events] is not nil, write the buffer with a deadline of one second.
    The outcome of the write is not looked at. *)
Definition deliver (m : ptr) (buf : list gobv) (st : state) : result unit :=
  match events (objects st m) with
  | Some f => Ret tt (log (EvWrite m f buf) st)
  | None => Ret tt st
  end.

Definition IPCServerNotifyUpdateFound `{IpcTypes} (s : UpdateState)
    (st : state) : result unit :=
  notifyAll UpdateFoundNotificationType false [GUint s] st.

Definition IPCServerNotifyUpdateProgress `{IpcTypes} `{Collaborators}
    (dp : DownloadProgress) (st : state) : result unit :=
  notifyAll UpdateProgressNotificationType true
            [GString (Activity dp); GUint (BytesDownloaded dp);
             GUint (BytesTotal dp); GString (errToString (Error dp));
             GBool (Complete dp)] st.

Definition IPCServerNotifyManagerStopping `{IpcTypes} (st : state)
  : result unit :=
  bind (notifyAll ManagerStoppingNotificationType false [] st)
       (fun _ st1 => Ret tt (log (EvSleep (Millisecond * 200)) st1)).

(** *** Update *)

(** The closure that [Update] starts: receive from the progress channel and
    notify, until a value is complete or carries an error.  A channel that
    delivers nothing more leaves the goroutine waiting. *)
Fixpoint relay `{IpcTypes} `{Collaborators} (progress : list DownloadProgress)
    (st : state) : result unit :=
  match progress with
  | [] => Blocked st
  | dp :: rest =>
      bind (IPCServerNotifyUpdateProgress dp st) (fun _ st1 =>
        if Complete dp || bool_decide (Error dp <> None) then Ret tt st1
        else relay rest st1)
  end.

(** [func (s *ManagerService) Update()] *)
Definition ManagerService_Update `{Collaborators} (s : ptr) (st : state)
  : result unit :=
  if elevatedToken (objects st s) =? 0 then Ret tt st
  else
    let token := elevatedToken (objects st s) in
    let st1 := log (EvDownloadVerifyAndExecute token) st in
    Ret tt (spawn [GoRelay (DownloadVerifyAndExecute token)] st1).

(** Running a started goroutine to its end. *)
Definition run_goroutine `{IpcTypes} `{Collaborators} (g : goroutine)
    (st : state) : result unit :=
  match g with
  | GoDeliver m buf => deliver m buf st
  | GoRelay progress => relay progress st
  end.

(** Running a list of delivery goroutines one after the other, in the order
    of the list (a schedule). *)
Fixpoint run_deliveries (sched : list (ptr * list gobv)) (st : state) : state :=
  match sched with
  | [] => st
  | (m, buf) :: rest =>
      match deliver m buf st with
      | Ret _ st1 => run_deliveries rest st1
      | Blocked st1 => st1
      end
  end.

(** *** The dispatch loop *)

(** One connection, as [ServeConn] sees it: the values its decoder will
    still read before the stream ends or breaks, the values its encoder has
    written, and how many more [Encode] calls the writer takes before it
    fails ([None]: it never fails). *)
Record conn := mkConn {
  reader : list gobv;
  written : list gobv;
  writable : option nat
}.

(** [decoder.Decode(&methodType)]: an error at the end of the stream and on a
    value of another type. *)
Definition Decode_MethodType (c : conn) : option (Z * conn) :=
  match reader c with
  | GInt z :: rest => Some (z, mkConn rest (written c) (writable c))
  | _ => None
  end.

(** [decoder.Decode(&stopTunnelsOnQuit)] *)
Definition Decode_bool (c : conn) : option (bool * conn) :=
  match reader c with
  | GBool b :: rest => Some (b, mkConn rest (written c) (writable c))
  | _ => None
  end.

(** [encoder.Encode(v)] *)
Definition Encode (v : gobv) (c : conn) : option conn :=
  match writable c with
  | Some O => None
  | Some (S k) => Some (mkConn (reader c) (written c ++ [v]) (Some k))
  | None => Some (mkConn (reader c) (written c ++ [v]) None)
  end.

Inductive control := LoopAgain | Returned.

(** The body of the [for] loop of [ServeConn]: one request. *)
Definition ServeConn_body `{IpcTypes} `{Collaborators} (s : ptr) (c : conn)
    (st : state) : result (control * conn) :=
  match Decode_MethodType c with
  | None => Ret (Returned, c) st
  | Some (methodType, c1) =>
      if methodType =? QuitMethodType then
        match Decode_bool c1 with
        | None => Ret (Returned, c1) st
        | Some (stopTunnelsOnQuit, c2) =>
            bind (ManagerService_Quit s stopTunnelsOnQuit st)
              (fun '(alreadyQuit, retErr) st1 =>
                 match Encode (GBool alreadyQuit) c2 with
                 | None => Ret (Returned, c2) st1
                 | Some c3 =>
                     match Encode (GString (errToString retErr)) c3 with
                     | None => Ret (Returned, c3) st1
                     | Some c4 => Ret (LoopAgain, c4) st1
                     end
                 end)
        end
      else if methodType =? UpdateStateMethodType then
        bind (ManagerService_UpdateState s st)
          (fun updateState st1 =>
             match Encode (GUint updateState) c1 with
             | None => Ret (Returned, c1) st1
             | Some c2 => Ret (LoopAgain, c2) st1
             end)
      else if methodType =? UpdateMethodType then
        bind (ManagerService_Update s st) (fun _ st1 => Ret (LoopAgain, c1) st1)
      else Ret (Returned, c1) st
  end.

(** The loop, for at most [fuel] requests; [None] when the fuel is spent
    before the loop returns. *)
Fixpoint ServeConn_loop `{IpcTypes} `{Collaborators} (fuel : nat) (s : ptr)
    (c : conn) (st : state) : option (result conn) :=
  match fuel with
  | O => None
  | S fuel' =>
      match ServeConn_body s c st with
      | Ret (LoopAgain, c') st' => ServeConn_loop fuel' s c' st'
      | Ret (Returned, c') st' => Some (Ret c' st')
      | Blocked st' => Some (Blocked st')
      end
  end.

(** [func (s *ManagerService) ServeConn(reader io.Reader, writer io.Writer)]:
    every request takes a value from the reader, so one more round than the
    reader has values is enough. *)
Definition ManagerService_ServeConn `{IpcTypes} `{Collaborators} (s : ptr)
    (c : conn) (st : state) : option (result conn) :=
  ServeConn_loop (S (length (reader c))) s c st.

(** What one round of the loop has encoded onto the writer. *)
Definition response_of (c c' : conn) : list gobv :=
  drop (length (written c)) (written c').

(** *** The update scheduler *)

(** What the scheduler takes from outside the package:
    [version.IsRunningOfficialVersion()], the value of the environment
    variable PANGOLIN_ALLOW_DEV_UPDATES, [services.StartedAtBoot()] and the
    runtime's random words, by the number of the [fastrandn] call. *)
Record Host := mkHost {
  IsRunningOfficialVersion : bool;
  Getenv_PANGOLIN_ALLOW_DEV_UPDATES : string;
  StartedAtBoot : bool;
  fastrand : nat -> Z
}.

(** Modelled from the spec: [updater.CheckForUpdate] is outside src; it
    returns an update or none, and an error or none.  The loop only tests
    both against nil, so the update found is kept as its name. *)
Record CheckResult := mkCheckResult {
  update : option string;
  err : option error
}.

(** [jitterSleep] *)
Definition jitterSleep (h : Host) (min max : Duration) (st : state) : state :=
  let r := fastrand h (fastrandCalls st) in
  log (EvSleep (jitterDuration r min max))
      (set_fastrandCalls (S (fastrandCalls st)) st).

(** The body of the [for] loop of [checkForUpdates], for the result [res] of
    its call of [updater.CheckForUpdate]; the two booleans are the locals
    [noError] and [didNotify]. *)
Definition checkForUpdates_body `{IpcTypes} (h : Host) (res : CheckResult)
    (noError didNotify : bool) (st : state) : result (bool * bool) :=
  let st0 := log EvCheckForUpdate st in
  if bool_decide (err res = None) && bool_decide (update res <> None)
     && negb didNotify then
    let st1 := set_updateState UpdateStateFoundUpdate st0 in
    bind (IPCServerNotifyUpdateFound (updateState st1) st1)
         (fun _ st2 => Ret (noError, true) st2)
  else if bool_decide (err res <> None) && negb didNotify then
    if noError then
      Ret (false, didNotify) (jitterSleep h (Minute * 4) (Minute * 6) st0)
    else
      Ret (noError, didNotify) (jitterSleep h (Minute * 25) (Minute * 30) st0)
  else
    Ret (noError, didNotify)
        (jitterSleep h (Hour - Minute * 3) (Hour + Minute * 3) st0).

(** The loop never ends; it is run here for as many rounds as there are
    scripted results of [updater.CheckForUpdate]. *)
Fixpoint checkForUpdates_loop `{IpcTypes} (h : Host) (checks : list CheckResult)
    (noError didNotify : bool) (st : state) : result (bool * bool) :=
  match checks with
  | [] => Ret (noError, didNotify) st
  | res :: rest =>
      bind (checkForUpdates_body h res noError didNotify st)
           (fun '(noError', didNotify') st1 =>
              checkForUpdates_loop h rest noError' didNotify' st1)
  end.

(** Where [checkForUpdates] is once the scripted checks are used up: it has
    returned, or it is in its loop with these values of [noError] and
    [didNotify]. *)
Inductive scheduler :=
| SchedReturned
| SchedLooping (noError didNotify : bool).

(** [checkForUpdates] *)
Definition checkForUpdates `{IpcTypes} (h : Host) (checks : list CheckResult)
    (st : state) : result scheduler :=
  let checking :=
    let st1 :=
      if StartedAtBoot h then jitterSleep h (Minute * 2) (Minute * 5) st
      else st in
    bind (checkForUpdates_loop h checks true false st1)
         (fun '(noError, didNotify) st2 =>
            Ret (SchedLooping noError didNotify) st2) in
  let isOfficial := IsRunningOfficialVersion h in
  if negb isOfficial then
    let devMode := String.eqb (Getenv_PANGOLIN_ALLOW_DEV_UPDATES h) "1" in
    if negb devMode then
      let st1 := set_updateState UpdateStateUpdatesDisabledUnofficialBuild st in
      bind (IPCServerNotifyUpdateFound (updateState st1) st1)
           (fun _ st2 => Ret SchedReturned st2)
    else checking
  else checking.

(** The sleeps, the checks and the notifications of a trace. *)
Definition sleeps (t : list event) : list Duration :=
  omap (fun e => match e with EvSleep d => Some d | _ => None end) t.

Definition is_check (e : event) : bool :=
  match e with EvCheckForUpdate => true | _ => false end.

Definition is_notify (e : event) : bool :=
  match e with EvNotifyAll _ _ _ => true | _ => false end.

Definition within (d lo hi : Duration) : Prop := lo <= d <= hi.

(** *** Runs and observations used by the statements *)

(** [Quit] called again and again, each call by the session and with the
    argument listed, every call after the one before has returned. *)
Fixpoint Quit_calls (calls : list (ptr * bool)) (st : state)
  : result (list (bool * option error)) :=
  match calls with
  | [] => Ret [] st
  | (s, stopTunnelsOnQuit) :: rest =>
      bind (ManagerService_Quit s stopTunnelsOnQuit st) (fun r st1 =>
        bind (Quit_calls rest st1) (fun rs st2 => Ret (r :: rs) st2))
  end.

(** The delivery goroutines of a list of goroutines. *)
Definition deliveries (gs : list goroutine) : list (ptr * list gobv) :=
  omap (fun g => match g with
                 | GoDeliver m buf => Some (m, buf)
                 | GoRelay _ => None
                 end) gs.

(** A stretch of the scheduler's trace in which every check is followed by
    a sleep of an hour, three minutes more or less, and nothing else
    happens. *)
Inductive hourly : list event -> Prop :=
| hourly_nil : hourly []
| hourly_check d t :
    within d (Hour - Minute * 3) (Hour + Minute * 3) ->
    hourly t ->
    hourly (EvCheckForUpdate :: EvSleep d :: t).

(** The reading of the scheduler that has a sleep of about an hour after
    each notification, before whatever comes next. *)
Definition sleeps_after_notifying (t : list event) : Prop :=
  forall pre nt adminOnly ifaces e post,
    t = pre ++ EvNotifyAll nt adminOnly ifaces :: e :: post ->
    exists d, e = EvSleep d /\
              within d (Hour - Minute * 3) (Hour + Minute * 3).

(** The values that an UpdateProgress notification carries, and the buffer
    that is written for it. *)
Definition progressFields `{Collaborators} (dp : DownloadProgress)
  : list gobv :=
  [GString (Activity dp); GUint (BytesDownloaded dp); GUint (BytesTotal dp);
   GString (errToString (Error dp)); GBool (Complete dp)].

Definition progressBuf `{IpcTypes} `{Collaborators} (dp : DownloadProgress)
  : list gobv :=
  GInt UpdateProgressNotificationType :: progressFields dp.

(** No signal is on the shutdown channel before the quit flag is set. *)
Definition quit_inv (st : state) : Prop :=
  haveQuit st = 0 -> quitManagersChan st = 0%nat.

(** The quit flag and the shutdown channel are the same in two states. *)
Definition same_quit (st st' : state) : Prop :=
  haveQuit st' = haveQuit st /\ quitManagersChan st' = quitManagersChan st.

(** The state a call is left in, whether it returned or not. *)
Definition result_state {A : Type} (r : result A) : state :=
  match r with
  | Ret _ st => st
  | Blocked st => st
  end.

(** *** Quit calls that run at the same time

    [Quit] is not atomic: between its compare-and-swap, its locked block
    and its send, other callers run.  A call is at one of these points. *)
Inductive quit_pc :=
| QEntry
| QSwap
| QRemove
| QSend
| QReturned (alreadyQuit : bool) (err : option error).

(** The next atomic piece of the call of session [s] that is at [pc];
    [None] when the call has returned or waits on the full channel. *)
Definition quit_step (s : ptr) (pc : quit_pc) (st : state)
  : option (quit_pc * state) :=
  match pc with
  | QEntry =>
      if elevatedToken (objects st s) =? 0
      then Some (QReturned false (Some ERROR_ACCESS_DENIED), st)
      else Some (QSwap, st)
  | QSwap =>
      let '(swapped, st1) := CompareAndSwap_haveQuit 0 1 st in
      if negb swapped then Some (QReturned true None, st1)
      else Some (QRemove, st1)
  | QRemove => Some (QSend, removeFromNotifications s st)
  | QSend =>
      match send_quitManagersChan st with
      | Ret _ st1 => Some (QReturned false None, st1)
      | Blocked _ => None
      end
  | QReturned _ _ => None
  end.

(** Calls in flight, each with its session, and one step of any of them. *)
Inductive pool_step :
  list (ptr * quit_pc) * state -> list (ptr * quit_pc) * state -> Prop :=
| pool_step_call before s pc after st pc' st' :
    quit_step s pc st = Some (pc', st') ->
    pool_step (before ++ (s, pc) :: after, st)
              (before ++ (s, pc') :: after, st').





(** *** The process as a whole *)

(** [IPCServerListen] makes the session object, at a new address
    [service], and starts the goroutine that registers it, serves the
    connection and, when [ServeConn] has returned, takes the session out
    with the same block as [Quit]. *)
Definition IPCServerListen_new (service : ptr) (eventsFile : handle)
    (token : Z) (st : state) : state :=
  set_objects (<[service := mkManagerService (Some eventsFile) token]>
                 (objects st)) st.

Definition IPCServerListen_register (service : ptr) (st : state) : state :=
  set_managerServices (<[service := true]> (managerServices st)) st.



(** Values for the constants and the collaborators, for the examples. *)
Definition exampleTypes : IpcTypes :=
  {| QuitMethodType := 0;
     UpdateStateMethodType := 1;
     UpdateMethodType := 2;
     UpdateFoundNotificationType := 0;
     UpdateProgressNotificationType := 1;
     ManagerStoppingNotificationType := 2 |}.

Definition exampleCollaborators : Collaborators :=
  {| errnoError := fun _ => "Access is denied."%string;
     DownloadVerifyAndExecute := fun _ =>
       [mkDownloadProgress "Downloading update" 0 100 None false;
        mkDownloadProgress "Installing update" 100 100 None true] |}.

(** Two sessions with an open events handle each: session 1 holds a token,
    session 2 holds none; and the registry with both. *)
Definition exampleObjects : ptr -> ManagerService :=
  fun m => if decide (m = 1%positive)
           then mkManagerService (Some 11%positive) 1000
           else mkManagerService (Some 12%positive) 0.

Definition exampleState : state :=
  set_managerServices (<[1%positive := true]> (<[2%positive := true]> ∅))
                      (initial exampleObjects).

(** Two sessions that both hold a token. *)
Definition adminObjects : ptr -> ManagerService :=
  fun m => mkManagerService (Some (m + 10)%positive) 1000.

Definition adminState : state :=
  set_managerServices (<[1%positive := true]> (<[2%positive := true]> ∅))
                      (initial adminObjects).

(** An official build started by hand, whose random words are all [0]. *)
Definition exampleHost : Host := mkHost true "" false (fun _ => 0).

(** An unofficial build without the override. *)
Definition unofficialHost : Host := mkHost false "" true (fun _ => 0).

Definition checkError : CheckResult :=
  mkCheckResult None (Some (ErrorString "no route to host")).
Definition checkFound : CheckResult :=
  mkCheckResult (Some "1.2.3"%string) None.
Definition checkNoUpdate : CheckResult := mkCheckResult None None.

(** An Update request followed by an UpdateState request. *)
Definition updateThenState : conn :=
  mkConn [GInt (@UpdateMethodType exampleTypes);
          GInt (@UpdateStateMethodType exampleTypes)] [] None.

End Managers.

(** ** The rest of the IPC server *)

Module Server.
Import Time Managers.
Local Open Scope Z_scope.

(** The goroutine that [IPCServerListen] starts for the session object at
    [service]: put it into the registry, serve the connection and, when
    [ServeConn] has returned, clear its events handle and take it out. *)
Definition IPCServerListen_goroutine `{IpcTypes} `{Collaborators}
    (service : ptr) (c : conn) (st : state) : option (result conn) :=
  match ManagerService_ServeConn service c
          (IPCServerListen_register service st) with
  | Some (Ret c' st1) => Some (Ret c' (removeFromNotifications service st1))
  | Some (Blocked st1) => Some (Blocked st1)
  | None => None
  end.

(** [IPCServerListen], with its goroutine run at once: the new object is at
    the address [service]. *)
Definition IPCServerListen `{IpcTypes} `{Collaborators} (service : ptr)
    (c : conn) (eventsFile : handle) (token : Z) (st : state)
  : option (result conn) :=
  IPCServerListen_goroutine service c
    (IPCServerListen_new service eventsFile token st).

(** A progress value after which the relay of [Update] stops. *)
Definition last_progress (dp : DownloadProgress) : Prop :=
  Complete dp = true \/ Error dp <> None.

(** The notification that the relay makes of a progress value. *)
Definition progressEvent `{IpcTypes} `{Collaborators} (dp : DownloadProgress)
  : event :=
  EvNotifyAll UpdateProgressNotificationType true (progressFields dp).

(** A check result that the scheduler publishes if it has not published
    yet: no error and an update. *)
Definition is_found (res : CheckResult) : bool :=
  bool_decide (err res = None) && bool_decide (update res <> None).

(** The host that differs from [h] only in running an official build. *)
Definition official (h : Host) : Host :=
  mkHost true (Getenv_PANGOLIN_ALLOW_DEV_UPDATES h) (StartedAtBoot h)
         (fastrand h).

(** A connection on which a Quit request arrives while the writer is
    already broken. *)
Definition quitOnBrokenWriter : conn :=
  mkConn [GInt (@QuitMethodType exampleTypes); GBool true] [] (Some 0%nat).

(** A download that reports twice, completes, and reports once more. *)
Definition progressBefore : list DownloadProgress :=
  [mkDownloadProgress "Downloading update" 10 100 None false;
   mkDownloadProgress "Downloading update" 100 100 None false].

Definition progressLast : DownloadProgress :=
  mkDownloadProgress "Installing update" 100 100 None true.

Definition progressAfter : list DownloadProgress :=
  [mkDownloadProgress "Done" 100 100 None false].

(** An unofficial build with the override, started at boot, and an official
    one started at boot. *)
Definition devHost : Host := mkHost false "1" true (fun _ => 0).
Definition bootHost : Host := mkHost true "" true (fun _ => 0).


End Server.

(** ** Package services: was the service started at boot *)

Module Services.
Import Time Managers.
Local Open Scope Z_scope.

Global Instance error_eq_dec : EqDecision error.
Proof. solve_decision. Defined.

(** [svc.StartReasonAuto] and [svc.StartReasonDelayedAuto], the bits
    SERVICE_START_REASON_AUTO and SERVICE_START_REASON_DELAYEDAUTO of
    Windows, and [windows.ERROR_PROC_NOT_FOUND]. *)
Definition StartReasonAuto : Z := 2.
Definition StartReasonDelayedAuto : Z := 16.
Definition ERROR_PROC_NOT_FOUND : error := Errno 127.

(** What the operating system answers when it is asked:
    [svc.IsWindowsService()], [svc.DynamicStartReason()] and
    [windows.DurationSinceBoot()]. *)
Record Os := mkOs {
  IsWindowsService : bool * option error;
  DynamicStartReason : Z * option error;
  DurationSinceBoot : Duration
}.

(** The two package variables: [startedAtBoot], and whether
    [startedAtBootOnce] has run its function. *)
Record boot := mkBoot {
  startedAtBoot : bool;
  startedAtBootOnce : bool
}.

(** [errors.Is(err, target)] for errors that wrap no other error. *)
Definition errors_Is (e target : error) : bool := bool_decide (e = target).

(** The function that [StartedAtBoot] hands to [startedAtBootOnce.Do]:
    the new value of [startedAtBoot], from the value [b] it has. *)
Definition StartedAtBoot_do (os : Os) (b : bool) : bool :=
  let '(isService, err) := IsWindowsService os in
  if bool_decide (err = None) && negb isService then b
  else
    let '(reason, err) := DynamicStartReason os in
    match err with
    | None =>
        negb (Z.land reason StartReasonAuto =? 0)
        || negb (Z.land reason StartReasonDelayedAuto =? 0)
    | Some e =>
        if errors_Is e ERROR_PROC_NOT_FOUND
        then DurationSinceBoot os <? Minute * 10
        else b
    end.

(** [StartedAtBoot] *)
Definition StartedAtBoot (os : Os) (b : boot) : bool * boot :=
  let b' :=
    if startedAtBootOnce b then b
    else mkBoot (StartedAtBoot_do os (startedAtBoot b)) true in
  (startedAtBoot b', b').

End Services.

(** ** Package api: the user *)

Module Api.


End Api.

(** ** Package config *)

Module Config.

Definition AppName : string := "Pangolin".
Definition DefaultHostname : string := "https://app.pangolin.net".
Definition ConfigFileName : string := "pangolin.json".

(** [type Config struct]: every field is a pointer to a string, nil or
    not. *)
Record Config := mkConfig {
  UserId : option string;
  Email : option string;
  OrgId : option string;
  Username : option string;
  Name : option string;
  Hostname : option string
}.

(** [type ConfigManager struct]; [config] may be nil. *)
Record ConfigManager := mkConfigManager {
  config : option Config;
  configPath : string
}.

(** [GetConfig] *)
Definition GetConfig (cm : ConfigManager) : option Config := config cm.

(** [save]: encoding a [Config] as JSON does not fail; [written] says
    whether [os.WriteFile] succeeded.  The stored configuration is replaced
    only then. *)
Definition save (written : bool) (cfg : option Config) (cm : ConfigManager)
  : bool * ConfigManager :=
  if written then (true, mkConfigManager cfg (configPath cm))
  else (false, cm).

(** [Save] *)
Definition Save (written : bool) (cfg : option Config) (cm : ConfigManager)
  : bool * ConfigManager :=
  save written cfg cm.

(** [Clear] *)
Definition Clear (written : bool) (cm : ConfigManager) : bool * ConfigManager :=
  let hostname :=
    match config cm with
    | Some c => match Hostname c with Some h => Some h | None => None end
    | None => None
    end in
  let clearedConfig := mkConfig None None None None None hostname in
  save written (Some clearedConfig) cm.

(** [GetHostname] *)
Definition GetHostname (cm : ConfigManager) : string :=
  match config cm with
  | Some c =>
      match Hostname c with
      | Some h => if bool_decide (h <> EmptyString) then h else DefaultHostname
      | None => DefaultHostname
      end
  | None => DefaultHostname
  end.

End Config.

(** ** Package auth: display names *)

Module Auth.






End Auth.

(** ** Package secrets *)

Module Secrets.

(** The credential store behind [keyring.Set], [keyring.Get] and
    [keyring.Delete]: one password per service and user, and the number of
    calls made so far.  A call may fail for a reason of the platform, and
    then it leaves the items as they are; [fault n] is the reason for which
    call number [n] fails, if it does. *)
Record keyring := mkKeyring {
  items : gmap (string * string) string;
  calls : nat
}.

Inductive kerror :=
| ErrNotFound
| ErrPlatform (reason : string).

Global Instance kerror_eq_dec : EqDecision kerror.
Proof. solve_decision. Defined.

Definition keyring_Set (fault : nat -> option string)
    (service user password : string) (k : keyring) : option kerror * keyring :=
  match fault (calls k) with
  | Some reason => (Some (ErrPlatform reason), mkKeyring (items k) (S (calls k)))
  | None =>
      (None, mkKeyring (<[(service, user) := password]> (items k)) (S (calls k)))
  end.

Definition keyring_Get (fault : nat -> option string)
    (service user : string) (k : keyring)
  : (string * option kerror) * keyring :=
  let k' := mkKeyring (items k) (S (calls k)) in
  match fault (calls k) with
  | Some reason => ((EmptyString, Some (ErrPlatform reason)), k')
  | None =>
      match items k !! (service, user) with
      | Some password => ((password, None), k')
      | None => ((EmptyString, Some ErrNotFound), k')
      end
  end.

Definition keyring_Delete (fault : nat -> option string)
    (service user : string) (k : keyring) : option kerror * keyring :=
  match fault (calls k) with
  | Some reason => (Some (ErrPlatform reason), mkKeyring (items k) (S (calls k)))
  | None =>
      match items k !! (service, user) with
      | Some _ =>
          (None, mkKeyring (delete (service, user) (items k)) (S (calls k)))
      | None => (Some ErrNotFound, mkKeyring (items k) (S (calls k)))
      end
  end.

(** [type SecretManager struct] and [NewSecretManager] *)
Record SecretManager := mkSecretManager { service : string }.

Definition NewSecretManager : SecretManager :=
  mkSecretManager "Pangolin: pangolin-windows".

(** [DeleteSecret] *)
Definition DeleteSecret (fault : nat -> option string) (sm : SecretManager)
    (key : string) (k : keyring) : bool * keyring :=
  let '(err, k1) := keyring_Delete fault (service sm) key k in
  (bool_decide (err = None) || bool_decide (err = Some ErrNotFound), k1).

(** [SaveSecret] *)
Definition SaveSecret (fault : nat -> option string) (sm : SecretManager)
    (key value : string) (k : keyring) : bool * keyring :=
  let '(_, k1) := DeleteSecret fault sm key k in
  let '(err, k2) := keyring_Set fault (service sm) key value k1 in
  (bool_decide (err = None), k2).

(** [GetSecret] *)
Definition GetSecret (fault : nat -> option string) (sm : SecretManager)
    (key : string) (k : keyring) : (string * bool) * keyring :=
  let '((value, err), k1) := keyring_Get fault (service sm) key k in
  match err with
  | Some _ => ((EmptyString, false), k1)
  | None => ((value, true), k1)
  end.

(** [olmIdKey] and [olmSecretKey] *)
Definition olmIdKey (sm : SecretManager) (userId : string) : string :=
  ("olm-id-" ++ userId)%string.

Definition olmSecretKey (sm : SecretManager) (userId : string) : string :=
  ("olm-secret-" ++ userId)%string.

(** [GetOlmId] and [GetOlmSecret] *)
Definition GetOlmId (fault : nat -> option string) (sm : SecretManager)
    (userId : string) (k : keyring) : (string * bool) * keyring :=
  GetSecret fault sm (olmIdKey sm userId) k.

Definition GetOlmSecret (fault : nat -> option string) (sm : SecretManager)
    (userId : string) (k : keyring) : (string * bool) * keyring :=
  GetSecret fault sm (olmSecretKey sm userId) k.

(** [SaveOlmCredentials] *)
Definition SaveOlmCredentials (fault : nat -> option string)
    (sm : SecretManager) (userId olmId secret : string) (k : keyring)
  : bool * keyring :=
  let '(idSaved, k1) := SaveSecret fault sm (olmIdKey sm userId) olmId k in
  let '(secretSaved, k2) :=
    SaveSecret fault sm (olmSecretKey sm userId) secret k1 in
  (idSaved && secretSaved, k2).

(** [HasOlmCredentials] *)
Definition HasOlmCredentials (fault : nat -> option string)
    (sm : SecretManager) (userId : string) (k : keyring) : bool * keyring :=
  let '((_, hasId), k1) := GetOlmId fault sm userId k in
  let '((_, hasSecret), k2) := GetOlmSecret fault sm userId k1 in
  (hasId && hasSecret, k2).

(** [DeleteOlmCredentials] *)
Definition DeleteOlmCredentials (fault : nat -> option string)
    (sm : SecretManager) (userId : string) (k : keyring) : bool * keyring :=
  let '(idDeleted, k1) := DeleteSecret fault sm (olmIdKey sm userId) k in
  let '(secretDeleted, k2) :=
    DeleteSecret fault sm (olmSecretKey sm userId) k1 in
  (idDeleted && secretDeleted, k2).

(** An empty store, and one that holds a token. *)
Definition emptyKeyring : keyring := mkKeyring ∅ 0.

Definition tokenKeyring : keyring :=
  mkKeyring {[ ("Pangolin: pangolin-windows", "token")%string := "old"%string ]} 0.

(** A store that never fails, and one whose second call fails. *)
Definition noFault : nat -> option string := fun _ => None.

Definition secondCallFails : nat -> option string :=
  fun n => if decide (n = 1%nat) then Some "data too big"%string else None.

End Secrets.

(** ** Package elevate *)

Module Elevate.
Import Managers.

(** Whether a string holds a NUL byte. *)
Fixpoint has_NUL (s : string) : bool :=
  match s with
  | EmptyString => false
  | String a rest => Ascii.eqb a Ascii.zero || has_NUL rest
  end.

Inductive shell_error :=
| EINVAL
| ShellError (e : error).

(** [windows.UTF16PtrFromString]: the UTF-16 form of [s], here [s] itself,
    or [EINVAL] when [s] holds a NUL. *)
Definition UTF16PtrFromString (s : string) : string + shell_error :=
  if has_NUL s then inr EINVAL else inl s.

(** The arguments of one call of [windows.ShellExecute] after the window
    handle, which is always 0; a nil pointer is [None]. *)
Record shell_call := mkShellCall {
  verb : string;
  file : option string;
  args : option string;
  cwd : option string;
  showCmd : Z
}.

(** [len(s) > 0] chooses between the converted string and the nil pointer. *)
Definition optional16 (s : string) : option string + shell_error :=
  if bool_decide (s <> EmptyString) then
    match UTF16PtrFromString s with
    | inl s16 => inl (Some s16)
    | inr e => inr e
    end
  else inl None.

(** [ShellExecute]: the error it returns and the call of
    [windows.ShellExecute] it has made, if it came to that; [shell] is what
    Windows answers to a call. *)
Definition ShellExecute (shell : shell_call -> option error)
    (program arguments directory : string) (show : Z)
  : option shell_error * option shell_call :=
  match optional16 program with
  | inr e => (Some e, None)
  | inl program16 =>
      match optional16 arguments with
      | inr e => (Some e, None)
      | inl arguments16 =>
          match optional16 directory with
          | inr e => (Some e, None)
          | inl directory16 =>
              let c := mkShellCall "runas" program16 arguments16 directory16
                                   show in
              match shell c with
              | Some e => (Some (ShellError e), Some c)
              | None => (None, Some c)
              end
          end
      end
  end.

End Elevate.

(** Arithmetic of the jitter. *)

Module TimeFacts.
Import Time.
Local Open Scope Z_scope.

Lemma wrap64_small z : in_int64 z -> wrap64 z = z.
Proof.
  unfold in_int64, wrap64. intros Hz.
  rewrite Z.mod_small by lia. lia.
Qed.

Lemma to_uint32_range z : 0 <= to_uint32 z < 2 ^ 32.
Proof. unfold to_uint32. apply Z.mod_pos_bound. lia. Qed.

Lemma to_uint32_le z : 0 <= z -> to_uint32 z <= z.
Proof. unfold to_uint32. intros Hz. apply Z.mod_le; lia. Qed.

Lemma to_uint32_small z : 0 <= z < 2 ^ 32 -> to_uint32 z = z.
Proof. unfold to_uint32. intros Hz. apply Z.mod_small. lia. Qed.

Lemma fastrandn_nonneg r n : 0 <= n -> 0 <= fastrandn r n.
Proof.
  intros Hn. unfold fastrandn. apply Z.shiftr_nonneg.
  pose proof (to_uint32_range r). nia.
Qed.

Lemma fastrandn_zero r : fastrandn r 0 = 0.
Proof. unfold fastrandn. rewrite Z.mul_0_r. reflexivity. Qed.

Lemma fastrandn_lt r n : 0 < n -> fastrandn r n < n.
Proof.
  intros Hn. unfold fastrandn. rewrite Z.shiftr_div_pow2 by lia.
  pose proof (to_uint32_range r).
  apply Z.div_lt_upper_bound; [lia | nia].
Qed.

(** Every value below [n] is the result for some random word. *)
Lemma fastrandn_attains n k :
  0 <= k < n -> n <= 2 ^ 32 ->
  exists r, 0 <= r < 2 ^ 32 /\ fastrandn r n = k.
Proof.
  intros Hk Hn.
  exists ((k * 2 ^ 32 + n - 1) / n).
  assert (Hq : k * 2 ^ 32 + n - 1 = n * ((k * 2 ^ 32 + n - 1) / n)
                                    + (k * 2 ^ 32 + n - 1) mod n)
    by (apply Z.div_mod; lia).
  pose proof (Z.mod_pos_bound (k * 2 ^ 32 + n - 1) n ltac:(lia)) as Hm.
  set (q := (k * 2 ^ 32 + n - 1) / n) in *.
  set (m := (k * 2 ^ 32 + n - 1) mod n) in *.
  assert (Hq0 : 0 <= q) by (subst q; apply Z.div_pos; nia).
  assert (Hq1 : q < 2 ^ 32) by nia.
  split; [lia |].
  unfold fastrandn. rewrite to_uint32_small by lia.
  rewrite Z.shiftr_div_pow2 by lia.
  symmetry. apply Z.div_unique with (r := q * n - k * 2 ^ 32); nia.
Qed.

Lemma firstWord_le n k r :
  0 < n -> firstWord n k <= r <-> k * 2 ^ 32 <= r * n.
Proof.
  intros Hn. unfold firstWord.
  pose proof (Z.div_mod (k * 2 ^ 32 + n - 1) n ltac:(lia)) as Hdm.
  pose proof (Z.mod_pos_bound (k * 2 ^ 32 + n - 1) n Hn) as Hm.
  set (q := (k * 2 ^ 32 + n - 1) / n) in *.
  set (m := (k * 2 ^ 32 + n - 1) mod n) in *.
  split; intros Hle; nia.
Qed.

(** The random words that give [k] are those from [firstWord n k] up to,
    and without, [firstWord n (k + 1)]. *)
Lemma fastrandn_interval r n k :
  0 < n -> 0 <= r < 2 ^ 32 ->
  fastrandn r n = k <-> firstWord n k <= r < firstWord n (k + 1).
Proof.
  intros Hn Hr. unfold fastrandn. rewrite to_uint32_small by lia.
  rewrite Z.shiftr_div_pow2 by lia.
  pose proof (firstWord_le n k r Hn) as Hk.
  pose proof (firstWord_le n (k + 1) r Hn) as Hk1.
  pose proof (Z.div_mod (r * n) (2 ^ 32) ltac:(lia)) as Hdm.
  pose proof (Z.mod_pos_bound (r * n) (2 ^ 32) ltac:(lia)) as Hm.
  split.
  - intros <-. lia.
  - intros [Hlo Hhi]. apply Hk in Hlo.
    assert (Hhi' : r * n < (k + 1) * 2 ^ 32) by lia.
    symmetry. apply Z.div_unique with (r := r * n - k * 2 ^ 32); lia.
Qed.

(** There are [2 ^ 32 / n] of them, or one more. *)
Lemma firstWord_gap n k :
  0 < n ->
  2 ^ 32 / n <= firstWord n (k + 1) - firstWord n k <= 2 ^ 32 / n + 1.
Proof.
  intros Hn. unfold firstWord.
  pose proof (Z.div_mod (k * 2 ^ 32 + n - 1) n ltac:(lia)) as Ha.
  pose proof (Z.mod_pos_bound (k * 2 ^ 32 + n - 1) n Hn) as Ham.
  pose proof (Z.div_mod ((k + 1) * 2 ^ 32 + n - 1) n ltac:(lia)) as Hb.
  pose proof (Z.mod_pos_bound ((k + 1) * 2 ^ 32 + n - 1) n Hn) as Hbm.
  pose proof (Z.div_mod (2 ^ 32) n ltac:(lia)) as Hc.
  pose proof (Z.mod_pos_bound (2 ^ 32) n Hn) as Hcm.
  set (qa := (k * 2 ^ 32 + n - 1) / n) in *.
  set (ra := (k * 2 ^ 32 + n - 1) mod n) in *.
  set (qb := ((k + 1) * 2 ^ 32 + n - 1) / n) in *.
  set (rb := ((k + 1) * 2 ^ 32 + n - 1) mod n) in *.
  set (qc := 2 ^ 32 / n) in *.
  set (rc := 2 ^ 32 mod n) in *.
  split; nia.
Qed.

End TimeFacts.

Module JitterFacts.
Import Time TimeFacts.
Local Open Scope Z_scope.

(** The span that [jitterSleep] hands to [fastrandn] is the number of whole
    milliseconds in [max - min + 1], cut to 32 bits. *)
Lemma jitterSpan_eq min max :
  in_int64 min -> in_int64 max -> min <= max -> max - min < 2 ^ 63 - 1 ->
  jitterSpan min max = to_uint32 ((max - min + 1) / Millisecond).
Proof.
  unfold in_int64. intros Hmin Hmax Hle Hrange. unfold jitterSpan.
  rewrite (wrap64_small (max - min)) by (unfold in_int64; lia).
  rewrite wrap64_small by (unfold in_int64; lia).
  rewrite Z.quot_div_nonneg by (unfold Millisecond, Microsecond, Nanosecond; lia).
  reflexivity.
Qed.

Lemma jitterSpan_bound min max :
  in_int64 min -> in_int64 max -> min <= max -> max - min < 2 ^ 63 - 1 ->
  0 <= jitterSpan min max /\
  Millisecond * jitterSpan min max <= max - min + 1.
Proof.
  intros Hmin Hmax Hle Hrange. rewrite jitterSpan_eq by assumption.
  pose proof (to_uint32_range ((max - min + 1) / Millisecond)) as Hu.
  assert (Hms : 0 < Millisecond) by (unfold Millisecond, Microsecond, Nanosecond; lia).
  assert (Hq : 0 <= (max - min + 1) / Millisecond) by (apply Z.div_pos; lia).
  pose proof (to_uint32_le _ Hq) as Hle'.
  pose proof (Z.mul_div_le (max - min + 1) Millisecond Hms).
  split; [lia | nia].
Qed.

(** The sleep is [min] plus a whole number [k] of milliseconds, and
    [k + 1] milliseconds fit into [max - min + 1] unless [k] is [0]. *)
Lemma jitterDuration_eq r min max :
  in_int64 min -> in_int64 max -> min <= max -> max - min < 2 ^ 63 - 1 ->
  exists k, 0 <= k /\
    jitterDuration r min max = min + k * Millisecond /\
    min <= min + k * Millisecond <= max /\
    (min < max -> min + k * Millisecond < max).
Proof.
  intros Hmin Hmax Hle Hrange.
  destruct (jitterSpan_bound min max Hmin Hmax Hle Hrange) as [Hs0 Hs1].
  set (n := jitterSpan min max) in *.
  exists (fastrandn r n).
  pose proof (fastrandn_nonneg r n Hs0) as Hk0.
  assert (Hms : Millisecond = 1000000) by reflexivity.
  assert (Hk : fastrandn r n * Millisecond <= max - min /\
               (min < max -> fastrandn r n * Millisecond < max - min)).
  { destruct (Z.eq_dec n 0) as [-> | Hn].
    - rewrite fastrandn_zero. lia.
    - pose proof (fastrandn_lt r n ltac:(lia)). rewrite Hms in *. lia. }
  unfold in_int64 in *.
  split; [assumption |]. split; [| lia].
  unfold jitterDuration. fold n.
  rewrite (wrap64_small (Millisecond * fastrandn r n))
    by (unfold in_int64; rewrite Hms in *; lia).
  rewrite wrap64_small by (unfold in_int64; rewrite Hms in *; lia).
  lia.
Qed.

Lemma jitterDuration_within r min max :
  in_int64 min -> in_int64 max -> min <= max -> max - min < 2 ^ 63 - 1 ->
  min <= jitterDuration r min max <= max.
Proof.
  intros Hmin Hmax Hle Hrange.
  destruct (jitterDuration_eq r min max Hmin Hmax Hle Hrange)
    as (k & _ & -> & Hb & _).
  exact Hb.
Qed.

Lemma jitterDuration_below_max r min max :
  in_int64 min -> in_int64 max -> min < max -> max - min < 2 ^ 63 - 1 ->
  jitterDuration r min max < max.
Proof.
  intros Hmin Hmax Hlt Hrange.
  destruct (jitterDuration_eq r min max Hmin Hmax ltac:(lia) Hrange)
    as (k & _ & -> & _ & Hb).
  auto.
Qed.

(** Every [min + k] milliseconds that leaves a whole millisecond below
    [max] is the sleep for some random word, when the range holds fewer than
    [2 ^ 32] milliseconds. *)
Lemma jitterDuration_attains min max k :
  in_int64 min -> in_int64 max -> min <= max ->
  max - min + 1 < 2 ^ 32 * Millisecond ->
  0 <= k -> min + (k + 1) * Millisecond <= max ->
  exists r, 0 <= r < 2 ^ 32 /\ jitterDuration r min max = min + k * Millisecond.
Proof.
  intros Hmin Hmax Hle Hrange Hk0 Hk1.
  assert (Hms : Millisecond = 1000000) by reflexivity.
  assert (Hr63 : max - min < 2 ^ 63 - 1) by (rewrite Hms in *; lia).
  assert (Hspan : jitterSpan min max = (max - min + 1) / Millisecond).
  { rewrite jitterSpan_eq by assumption. apply to_uint32_small.
    split; [apply Z.div_pos; lia |].
    apply Z.div_lt_upper_bound; rewrite Hms in *; lia. }
  assert (Hkn : k < jitterSpan min max).
  { rewrite Hspan. apply Z.lt_le_trans with (k + 1); [lia |].
    apply Z.div_le_lower_bound; rewrite Hms in *; lia. }
  assert (Hn32 : jitterSpan min max <= 2 ^ 32).
  { pose proof (to_uint32_range
                  (Z.quot (wrap64 (wrap64 (max - min) + 1)) Millisecond)).
    unfold jitterSpan. lia. }
  destruct (fastrandn_attains (jitterSpan min max) k ltac:(lia) Hn32)
    as (r & Hr & Hf).
  exists r. split; [assumption |].
  unfold in_int64 in *.
  unfold jitterDuration. rewrite Hf.
  rewrite (wrap64_small (Millisecond * k))
    by (unfold in_int64; rewrite Hms in *; lia).
  rewrite wrap64_small by (unfold in_int64; rewrite Hms in *; lia).
  lia.
Qed.

(** Within the range of [int64] the sleep is [min] and the drawn number of
    milliseconds, with no wrap. *)
Lemma jitterDuration_fastrandn r min max :
  in_int64 min -> in_int64 max -> min <= max -> max - min < 2 ^ 63 - 1 ->
  jitterDuration r min max
  = min + fastrandn r (jitterSpan min max) * Millisecond.
Proof.
  intros Hmin Hmax Hle Hrange.
  destruct (jitterSpan_bound min max Hmin Hmax Hle Hrange) as [Hs0 Hs1].
  set (n := jitterSpan min max) in *.
  pose proof (fastrandn_nonneg r n Hs0) as Hk0.
  assert (Hms : Millisecond = 1000000) by reflexivity.
  assert (Hk : fastrandn r n * Millisecond <= max - min).
  { destruct (Z.eq_dec n 0) as [-> | Hn].
    - rewrite fastrandn_zero. lia.
    - pose proof (fastrandn_lt r n ltac:(lia)). rewrite Hms in *. lia. }
  unfold in_int64 in *. unfold jitterDuration. fold n.
  rewrite (wrap64_small (Millisecond * fastrandn r n))
    by (unfold in_int64; rewrite Hms in *; lia).
  rewrite wrap64_small by (unfold in_int64; rewrite Hms in *; lia).
  lia.
Qed.

(** The random words that make the sleep [min + k] milliseconds. *)
Lemma jitterDuration_words r min max k :
  in_int64 min -> in_int64 max -> min <= max -> max - min < 2 ^ 63 - 1 ->
  0 < jitterSpan min max -> 0 <= r < 2 ^ 32 ->
  jitterDuration r min max = min + k * Millisecond <->
  firstWord (jitterSpan min max) k <= r
  < firstWord (jitterSpan min max) (k + 1).
Proof.
  intros Hmin Hmax Hle Hrange Hspan Hr.
  rewrite jitterDuration_fastrandn by assumption.
  rewrite <- (fastrandn_interval r (jitterSpan min max) k Hspan Hr).
  assert (Hms : Millisecond = 1000000) by reflexivity.
  rewrite Hms. split; intros Heq; lia.
Qed.

End JitterFacts.

(** ** Quit *)

Module QuitFacts.
Import Time Managers.
Local Open Scope Z_scope.

Lemma Quit_first s b st :
  elevatedToken (objects st s) <> 0 ->
  haveQuit st = 0 -> quitManagersChan st = 0%nat ->
  ManagerService_Quit s b st =
    Ret (false, None)
        (set_quitManagersChan 1 (removeFromNotifications s (set_haveQuit 1 st))).
Proof.
  intros Htok Hq Hc. unfold ManagerService_Quit, CompareAndSwap_haveQuit.
  destruct (Z.eqb_spec (elevatedToken (objects st s)) 0) as [|_]; [contradiction |].
  rewrite Hq. simpl. unfold send_quitManagersChan. simpl. rewrite Hc. reflexivity.
Qed.

Lemma Quit_again s b st :
  elevatedToken (objects st s) <> 0 -> haveQuit st <> 0 ->
  ManagerService_Quit s b st = Ret (true, None) st.
Proof.
  intros Htok Hq. unfold ManagerService_Quit, CompareAndSwap_haveQuit.
  destruct (Z.eqb_spec (elevatedToken (objects st s)) 0) as [|_]; [contradiction |].
  destruct (Z.eqb_spec (haveQuit st) 0) as [|_]; [contradiction |].
  reflexivity.
Qed.

(** No operation changes the token of a session. *)
Lemma removeFromNotifications_token s st m :
  elevatedToken (objects (removeFromNotifications s st) m) =
  elevatedToken (objects st m).
Proof.
  simpl. destruct (decide (s = m)) as [-> | Hne].
  - rewrite fn_lookup_insert. reflexivity.
  - rewrite fn_lookup_insert_ne by assumption. reflexivity.
Qed.

Lemma Quit_calls_again calls st :
  haveQuit st <> 0 ->
  Forall (fun c => elevatedToken (objects st c.1) <> 0) calls ->
  Quit_calls calls st = Ret (map (fun _ => (true, None)) calls) st.
Proof.
  intros Hq Hall. induction Hall as [| [s b] rest Hs _ IH]; [reflexivity |].
  simpl in *. rewrite Quit_again by assumption. simpl. rewrite IH. reflexivity.
Qed.

(** C4: a session whose elevated token is zero gets the access-denied error
    from Quit, and the state after the call is the state before it: the quit
    flag, the registry, every session's events handle and the shutdown
    channel are as they were. *)
Theorem Quit_unprivileged_denied s stopTunnelsOnQuit st :
  elevatedToken (objects st s) = 0 ->
  ManagerService_Quit s stopTunnelsOnQuit st
  = Ret (false, Some ERROR_ACCESS_DENIED) st.
Proof.
  intros Htok. unfold ManagerService_Quit. rewrite Htok. reflexivity.
Qed.

Lemma Quit_unprivileged_denied_witness :
  ManagerService_Quit 2%positive true exampleState
  = Ret (false, Some ERROR_ACCESS_DENIED) exampleState.
Proof. apply Quit_unprivileged_denied. reflexivity. Defined.

(** C3: in a sequence of Quit calls by elevated sessions that starts with
    the quit flag unset (and the shutdown channel still empty), the first
    call flips the flag and returns alreadyQuit=false with a nil error, and
    every later call returns alreadyQuit=true with a nil error in the very
    state it was called in: no change to the registry, the events handles
    or the channel.  So exactly one call of the sequence returns
    alreadyQuit=false. *)
Theorem Quit_idempotent s0 b0 rest st :
  haveQuit st = 0 -> quitManagersChan st = 0%nat ->
  Forall (fun c => elevatedToken (objects st c.1) <> 0) ((s0, b0) :: rest) ->
  exists st1,
    ManagerService_Quit s0 b0 st = Ret (false, None) st1 /\
    haveQuit st1 = 1 /\
    Forall (fun c => ManagerService_Quit c.1 c.2 st1 = Ret (true, None) st1)
           rest /\
    Quit_calls ((s0, b0) :: rest) st
    = Ret ((false, None) :: map (fun _ => (true, None)) rest) st1.
Proof.
  intros Hq Hc Hall. apply Forall_cons_1 in Hall as [Hs0 Hrest]. simpl in Hs0.
  eexists. split; [apply Quit_first; assumption |].
  split; [reflexivity |].
  set (st1 := set_quitManagersChan 1
                (removeFromNotifications s0 (set_haveQuit 1 st))).
  assert (Hq1 : haveQuit st1 <> 0) by (simpl; lia).
  assert (Hrest1 : Forall (fun c => elevatedToken (objects st1 c.1) <> 0) rest).
  { eapply List.Forall_impl; [| exact Hrest]. intros [s b] Hs. simpl in *.
    subst st1. simpl.
    change (elevatedToken
              (objects (removeFromNotifications s0 (set_haveQuit 1 st)) s) <> 0).
    rewrite removeFromNotifications_token. exact Hs. }
  split.
  - eapply List.Forall_impl; [| exact Hrest1]. intros [s b] Hs.
    apply Quit_again; assumption.
  - simpl. rewrite Quit_first by assumption. simpl. fold st1.
    rewrite Quit_calls_again by assumption. reflexivity.
Qed.

Lemma Quit_idempotent_witness :
  exists st1,
    ManagerService_Quit 1%positive true adminState = Ret (false, None) st1 /\
    haveQuit st1 = 1 /\
    Forall (fun c => ManagerService_Quit c.1 c.2 st1 = Ret (true, None) st1)
           [(2%positive, true); (1%positive, false)] /\
    Quit_calls [(1%positive, true); (2%positive, true); (1%positive, false)]
               adminState
    = Ret [(false, None); (true, None); (true, None)] st1.
Proof.
  apply (Quit_idempotent 1%positive true [(2%positive, true); (1%positive, false)]
                         adminState).
  - reflexivity.
  - reflexivity.
  - repeat constructor; simpl; lia.
Defined.

(** C2, as the code has it: a Quit by an elevated session that finds the
    quit flag unset (and the shutdown channel empty) first flips the flag,
    with the registry and every session object still as they were, and only
    then removes the caller, and the caller alone, from the registry and
    clears the caller's events handle; it puts one signal on the channel
    and returns alreadyQuit=false.  Every other session keeps its place in
    the registry and its handle, so the registry is empty afterwards only if
    it held no session but the caller. *)
Theorem Quit_removes_caller s stopTunnelsOnQuit st :
  elevatedToken (objects st s) <> 0 ->
  haveQuit st = 0 -> quitManagersChan st = 0%nat ->
  exists st1 st',
    CompareAndSwap_haveQuit 0 1 st = (true, st1) /\
    haveQuit st1 = 1 /\
    managerServices st1 = managerServices st /\
    objects st1 = objects st /\
    send_quitManagersChan (removeFromNotifications s st1) = Ret tt st' /\
    ManagerService_Quit s stopTunnelsOnQuit st = Ret (false, None) st' /\
    haveQuit st' = 1 /\
    quitManagersChan st' = 1%nat /\
    managerServices st' = delete s (managerServices st) /\
    events (objects st' s) = None /\
    (forall m, m <> s ->
       objects st' m = objects st m /\
       managerServices st' !! m = managerServices st !! m) /\
    (managerServices st' = ∅ <->
     forall m, m <> s -> managerServices st !! m = None).
Proof.
  intros Htok Hq Hc.
  exists (set_haveQuit 1 st),
         (set_quitManagersChan 1
            (removeFromNotifications s (set_haveQuit 1 st))).
  split; [unfold CompareAndSwap_haveQuit; rewrite Hq; reflexivity |].
  split; [reflexivity |]. split; [reflexivity |]. split; [reflexivity |].
  split; [unfold send_quitManagersChan; simpl; rewrite Hc; reflexivity |].
  split; [apply Quit_first; assumption |].
  split; [reflexivity |]. split; [reflexivity |]. split; [reflexivity |].
  split; [simpl; rewrite fn_lookup_insert; reflexivity |].
  split.
  - intros m Hm. simpl. split.
    + rewrite fn_lookup_insert_ne by congruence. reflexivity.
    + apply lookup_delete_ne. congruence.
  - simpl. split.
    + intros He m Hm. rewrite <- (lookup_delete_ne (managerServices st) s m)
        by congruence.
      rewrite He. apply lookup_empty.
    + intros Hall. apply map_eq. intros m. rewrite lookup_empty.
      destruct (decide (s = m)) as [-> | Hne].
      * apply lookup_delete_eq.
      * rewrite lookup_delete_ne by assumption. apply Hall. congruence.
Qed.

Lemma Quit_removes_caller_witness :
  exists st1 st',
    CompareAndSwap_haveQuit 0 1 adminState = (true, st1) /\
    haveQuit st1 = 1 /\
    managerServices st1 = managerServices adminState /\
    objects st1 = objects adminState /\
    send_quitManagersChan (removeFromNotifications 1%positive st1) = Ret tt st' /\
    ManagerService_Quit 1%positive true adminState = Ret (false, None) st' /\
    haveQuit st' = 1 /\
    quitManagersChan st' = 1%nat /\
    managerServices st' = delete 1%positive (managerServices adminState) /\
    events (objects st' 1%positive) = None /\
    (forall m, m <> 1%positive ->
       objects st' m = objects adminState m /\
       managerServices st' !! m = managerServices adminState !! m) /\
    (managerServices st' = ∅ <->
     forall m, m <> 1%positive -> managerServices adminState !! m = None).
Proof.
  apply (Quit_removes_caller 1%positive true adminState).
  - simpl. lia.
  - reflexivity.
  - reflexivity.
Defined.

(** C2 as stated fails: with two elevated sessions in the registry, the
    successful Quit of session 1 leaves session 2 registered, with its
    events handle open. *)
Lemma Quit_leaves_other_sessions :
  exists st',
    ManagerService_Quit 1%positive true adminState = Ret (false, None) st' /\
    managerServices st' !! 2%positive = Some true /\
    events (objects st' 2%positive) = Some 12%positive /\
    managerServices st' <> ∅.
Proof.
  exists (set_quitManagersChan 1
            (removeFromNotifications 1%positive (set_haveQuit 1 adminState))).
  assert (H2 : managerServices
                 (set_quitManagersChan 1
                    (removeFromNotifications 1%positive
                       (set_haveQuit 1 adminState)))
               !! 2%positive = Some true) by (vm_compute; reflexivity).
  split; [reflexivity |].
  split; [exact H2 |]. split; [reflexivity |].
  intros He. rewrite He in H2. rewrite lookup_empty in H2. discriminate.
Qed.

End QuitFacts.

(** ** Notifications *)

Module NotifyFacts.
Import Time Managers.
Local Open Scope Z_scope.

Lemma elem_of_notifyTargets adminOnly st m :
  m ∈ notifyTargets adminOnly st <->
  is_Some (managerServices st !! m) /\
  (adminOnly = true -> elevatedToken (objects st m) <> 0).
Proof.
  unfold notifyTargets. rewrite list_elem_of_filter, list_elem_of_fmap.
  split.
  - intros [Hf ([k v] & -> & Hin)]. simpl in *.
    apply elem_of_map_to_list in Hin. split; [eauto |].
    intros -> Hz. rewrite Hz in Hf. discriminate.
  - intros [[v Hv] Hadm]. split.
    + destruct adminOnly; [| rewrite andb_false_r; reflexivity].
      destruct (Z.eqb_spec (elevatedToken (objects st m)) 0) as [Hz | _];
        [exfalso; exact (Hadm eq_refl Hz) | reflexivity].
    + exists (m, v). split; [reflexivity |]. apply elem_of_map_to_list. exact Hv.
Qed.


Lemma notifyTargets_log adminOnly e st :
  notifyTargets adminOnly (log e st) = notifyTargets adminOnly st.
Proof. reflexivity. Qed.

(** What a broadcast does: it returns, having recorded the call and started
    one delivery per target with the one buffer; the globals stay as they
    are. *)
Lemma notifyAll_spec nt adminOnly ifaces st :
  exists st',
    notifyAll nt adminOnly ifaces st = Ret tt st' /\
    goroutines st' = goroutines st ++
      ((fun m => GoDeliver m (GInt nt :: ifaces)) <$> notifyTargets adminOnly st) /\
    trace st' = trace st ++ [EvNotifyAll nt adminOnly ifaces] /\
    updateState st' = updateState st /\
    objects st' = objects st /\
    managerServices st' = managerServices st /\
    haveQuit st' = haveQuit st /\
    quitManagersChan st' = quitManagersChan st /\
    fastrandCalls st' = fastrandCalls st.
Proof.
  unfold notifyAll.
  destruct (decide (size (managerServices
                            (log (EvNotifyAll nt adminOnly ifaces) st)) = 0%nat))
    as [Hempty | Hne].
  - eexists. split; [reflexivity |]. simpl in *.
    apply map_size_empty_inv in Hempty.
    unfold notifyTargets. rewrite Hempty, map_to_list_empty. simpl.
    rewrite app_nil_r. repeat split; reflexivity.
  - eexists. split; [reflexivity |]. simpl. repeat split; reflexivity.
Qed.

Lemma deliver_spec m buf st :
  exists st',
    deliver m buf st = Ret tt st' /\
    objects st' = objects st /\
    (forall e, e ∈ trace st' ->
       e ∈ trace st \/ exists f, events (objects st m) = Some f /\ e = EvWrite m f buf).
Proof.
  unfold deliver. destruct (events (objects st m)) as [f |] eqn:Hev.
  - eexists. split; [reflexivity |]. split; [reflexivity |].
    simpl. intros e He. apply elem_of_app in He as [He | He]; [auto |].
    apply list_elem_of_singleton in He. right. eauto.
  - eexists. split; [reflexivity |]. split; [reflexivity |]. auto.
Qed.

(** Whatever the schedule, running deliveries writes for the sessions of
    the schedule only, and each write carries the buffer of its delivery. *)
Lemma run_deliveries_trace sched st e :
  e ∈ trace (run_deliveries sched st) ->
  e ∈ trace st \/
  exists m f buf, (m, buf) ∈ sched /\ e = EvWrite m f buf.
Proof.
  revert st. induction sched as [| [m buf] rest IH]; intros st He; [auto |].
  simpl in He. destruct (deliver_spec m buf st) as (st1 & Hd & _ & Htr).
  rewrite Hd in He. apply IH in He as [He | (m' & f & buf' & Hin & ->)].
  - apply Htr in He as [He | (f & _ & ->)]; [auto |].
    right. exists m, f, buf. split; [left | reflexivity].
  - right. exists m', f, buf'. split; [right; exact Hin | reflexivity].
Qed.

Lemma elem_of_deliveries_fmap (ms : list ptr) buf m b :
  (m, b) ∈ deliveries ((fun m => GoDeliver m buf) <$> ms) <-> m ∈ ms /\ b = buf.
Proof.
  unfold deliveries. rewrite list_elem_of_omap. split.
  - intros (g & Hg & Hsome). apply list_elem_of_fmap in Hg as (m' & -> & Hm').
    simpl in Hsome. injection Hsome as -> ->. auto.
  - intros [Hm ->]. exists (GoDeliver m buf). split; [| reflexivity].
    apply list_elem_of_fmap. eauto.
Qed.

(** C8: a broadcast with adminOnly=true returns having started a delivery
    for exactly the registered sessions whose elevated token is nonzero;
    and in whatever order and state these deliveries run, every write they
    make is the write of the buffer to a registered session with a nonzero
    token: a session with a zero token gets none. *)
Theorem notifyAll_adminOnly_elevated_only notificationType ifaces st :
  exists st' new,
    notifyAll notificationType true ifaces st = Ret tt st' /\
    goroutines st' = goroutines st ++ new /\
    (forall g, g ∈ new <->
       exists m, g = GoDeliver m (GInt notificationType :: ifaces) /\
                 is_Some (managerServices st !! m) /\
                 elevatedToken (objects st m) <> 0) /\
    (forall sched st2 e,
       sched ≡ₚ deliveries new ->
       e ∈ trace (run_deliveries sched st2) ->
       e ∈ trace st2 \/
       exists m f, e = EvWrite m f (GInt notificationType :: ifaces) /\
                   is_Some (managerServices st !! m) /\
                   elevatedToken (objects st m) <> 0).
Proof.
  destruct (notifyAll_spec notificationType true ifaces st)
    as (st' & Hret & Hgo & _).
  exists st', ((fun m => GoDeliver m (GInt notificationType :: ifaces))
                 <$> notifyTargets true st).
  split; [exact Hret |]. split; [exact Hgo |]. split.
  - intros g. rewrite list_elem_of_fmap. split.
    + intros (m & -> & Hm). apply elem_of_notifyTargets in Hm as [Hreg Htok].
      exists m. auto.
    + intros (m & -> & Hreg & Htok). exists m. split; [reflexivity |].
      apply elem_of_notifyTargets. auto.
  - intros sched st2 e Hperm He.
    apply run_deliveries_trace in He as [He | (m & f & buf & Hin & ->)]; [auto |].
    rewrite Hperm in Hin. apply elem_of_deliveries_fmap in Hin as [Hm ->].
    apply elem_of_notifyTargets in Hm as [Hreg Htok].
    right. exists m, f. auto.
Qed.

Section WithTypes.
Context `{IpcTypes} `{Collaborators}.

(** C10: for a registered session m, an UpdateProgress notification is a
    broadcast with adminOnly=true, which starts a delivery for m if the
    token of m is nonzero and starts none, and so writes nothing to m, if it
    is zero; an UpdateFound and a ManagerStopping notification are
    broadcasts with adminOnly=false, which start a delivery for m whatever
    its token. *)
Theorem notification_privilege_scopes st m :
  is_Some (managerServices st !! m) ->
  (forall dp, exists st',
      IPCServerNotifyUpdateProgress dp st = Ret tt st' /\
      trace st' = trace st ++
        [EvNotifyAll UpdateProgressNotificationType true (progressFields dp)] /\
      (elevatedToken (objects st m) <> 0 ->
         GoDeliver m (progressBuf dp) ∈ goroutines st') /\
      (elevatedToken (objects st m) = 0 ->
         exists new, goroutines st' = goroutines st ++ new /\
           (forall buf, GoDeliver m buf ∉ new) /\
           (forall sched st2 f buf,
              sched ≡ₚ deliveries new ->
              EvWrite m f buf ∈ trace (run_deliveries sched st2) ->
              EvWrite m f buf ∈ trace st2))) /\
  (forall u, exists st',
      IPCServerNotifyUpdateFound u st = Ret tt st' /\
      trace st' = trace st ++
        [EvNotifyAll UpdateFoundNotificationType false [GUint u]] /\
      GoDeliver m [GInt UpdateFoundNotificationType; GUint u] ∈ goroutines st') /\
  (exists st',
      IPCServerNotifyManagerStopping st = Ret tt st' /\
      trace st' = trace st ++
        [EvNotifyAll ManagerStoppingNotificationType false [];
         EvSleep (Millisecond * 200)] /\
      GoDeliver m [GInt ManagerStoppingNotificationType] ∈ goroutines st').
Proof.
  intros Hreg. split; [| split].
  - intros dp. unfold IPCServerNotifyUpdateProgress.
    match goal with |- context [notifyAll ?nt ?a ?i st] =>
      destruct (notifyAll_spec nt a i st) as (st' & Hret & Hgo & Htr & _) end.
    exists st'. split; [exact Hret |]. split; [exact Htr |]. split.
    + intros Htok. rewrite Hgo. apply elem_of_app. right.
      apply list_elem_of_fmap. exists m. split; [reflexivity |].
      apply elem_of_notifyTargets. auto.
    + intros Htok. eexists. split; [exact Hgo |]. split.
      * intros buf Hin. apply list_elem_of_fmap in Hin as (m' & Heq & Hm').
        injection Heq as <- _.
        apply elem_of_notifyTargets in Hm' as [_ Hne]. exact (Hne eq_refl Htok).
      * intros sched st2 f buf Hperm He.
        apply run_deliveries_trace in He as [He | (m' & f' & buf' & Hin & Heq)];
          [exact He |].
        injection Heq as <- _ _.
        rewrite Hperm in Hin. apply elem_of_deliveries_fmap in Hin as [Hm' _].
        apply elem_of_notifyTargets in Hm' as [_ Hne].
        exfalso. exact (Hne eq_refl Htok).
  - intros u. unfold IPCServerNotifyUpdateFound.
    destruct (notifyAll_spec UpdateFoundNotificationType false [GUint u] st)
      as (st' & Hret & Hgo & Htr & _).
    exists st'. split; [exact Hret |]. split; [exact Htr |].
    rewrite Hgo. apply elem_of_app. right.
    apply list_elem_of_fmap. exists m. split; [reflexivity |].
    apply elem_of_notifyTargets. split; [exact Hreg | discriminate].
  - unfold IPCServerNotifyManagerStopping.
    destruct (notifyAll_spec ManagerStoppingNotificationType false [] st)
      as (st' & Hret & Hgo & Htr & _).
    rewrite Hret. simpl. eexists. split; [reflexivity |]. simpl.
    split; [rewrite Htr, <- app_assoc; reflexivity |].
    rewrite Hgo. apply elem_of_app. right.
    apply list_elem_of_fmap. exists m. split; [reflexivity |].
    apply elem_of_notifyTargets. split; [exact Hreg | discriminate].
Qed.

End WithTypes.

End NotifyFacts.

(** ** The dispatch loop *)

Module ServeFacts.
Import Time Managers.
Local Open Scope Z_scope.

Lemma Encode_Some v c c' :
  Encode v c = Some c' ->
  written c' = written c ++ [v] /\ reader c' = reader c.
Proof.
  unfold Encode. destruct (writable c) as [[| k] |]; intros Heq;
    try discriminate; injection Heq as <-; auto.
Qed.

Lemma Decode_MethodType_Some c z c1 :
  Decode_MethodType c = Some (z, c1) ->
  reader c = GInt z :: reader c1 /\ written c1 = written c.
Proof.
  unfold Decode_MethodType. destruct (reader c) as [| [] rest] eqn:Hr;
    intros Heq; try discriminate. injection Heq as <- <-. auto.
Qed.

Lemma Decode_bool_Some c b c1 :
  Decode_bool c = Some (b, c1) ->
  reader c = GBool b :: reader c1 /\ written c1 = written c.
Proof.
  unfold Decode_bool. destruct (reader c) as [| [] rest] eqn:Hr;
    intros Heq; try discriminate. injection Heq as <- <-. auto.
Qed.

Lemma response_of_app c c' resp :
  written c' = written c ++ resp -> response_of c c' = resp.
Proof. unfold response_of. intros ->. apply drop_app_length. Qed.

Lemma response_of_same c c' : written c' = written c -> response_of c c' = [].
Proof.
  intros Heq. apply response_of_app. rewrite app_nil_r. exact Heq.
Qed.

(** Under [quit_inv], Quit returns, and [quit_inv] holds afterwards. *)
Lemma Quit_returns s b st :
  quit_inv st ->
  exists r st', ManagerService_Quit s b st = Ret r st' /\ quit_inv st' /\
                updateState st' = updateState st.
Proof.
  intros Hinv. unfold ManagerService_Quit, CompareAndSwap_haveQuit.
  destruct (elevatedToken (objects st s) =? 0); [eauto |].
  destruct (Z.eqb_spec (haveQuit st) 0) as [Hq | Hq]; simpl.
  - unfold send_quitManagersChan. simpl. rewrite (Hinv Hq). simpl.
    eexists _, _. split; [reflexivity |]. split; [| reflexivity].
    unfold quit_inv. simpl. discriminate.
  - eauto.
Qed.

Section WithTypes.
Context `{IpcTypes} `{Collaborators}.

Lemma Update_returns s st :
  exists st', ManagerService_Update s st = Ret tt st' /\
              haveQuit st' = haveQuit st /\
              quitManagersChan st' = quitManagersChan st /\
              updateState st' = updateState st /\
              managerServices st' = managerServices st /\
              objects st' = objects st.
Proof.
  unfold ManagerService_Update.
  destruct (elevatedToken (objects st s) =? 0); eexists; split;
    try reflexivity; repeat split; reflexivity.
Qed.

(** A round that loops again has taken at least one value from the reader,
    and it keeps [quit_inv] and the update state. *)
Lemma ServeConn_body_LoopAgain s c st c' st' :
  ServeConn_body s c st = Ret (LoopAgain, c') st' ->
  (length (reader c') < length (reader c))%nat.
Proof.
  unfold ServeConn_body.
  destruct (Decode_MethodType c) as [[methodType c1] |] eqn:Hd;
    [| discriminate].
  apply Decode_MethodType_Some in Hd as [Hr1 _]. rewrite Hr1. simpl.
  destruct (methodType =? QuitMethodType).
  { destruct (Decode_bool c1) as [[b c2] |] eqn:Hb; [| discriminate].
    apply Decode_bool_Some in Hb as [Hr2 _]. rewrite Hr2. simpl.
    destruct (ManagerService_Quit s b st) as [[a e] st1 | st1]; simpl;
      [| discriminate].
    destruct (Encode (GBool a) c2) as [c3 |] eqn:He1; [| discriminate].
    destruct (Encode (GString (errToString e)) c3) as [c4 |] eqn:He2;
      [| discriminate].
    apply Encode_Some in He1 as [_ He1]. apply Encode_Some in He2 as [_ He2].
    intros Heq. injection Heq as <- _. rewrite He2, He1. lia. }
  destruct (methodType =? UpdateStateMethodType).
  { simpl. destruct (Encode (GUint (updateState st)) c1) as [c2 |] eqn:He;
      [| discriminate].
    apply Encode_Some in He as [_ He].
    intros Heq. injection Heq as <- _. rewrite He. lia. }
  destruct (methodType =? UpdateMethodType); [| discriminate].
  destruct (Update_returns s st) as (st1 & -> & _). simpl.
  intros Heq. injection Heq as <- _. lia.
Qed.



(** C1, as the code has it: for a decoded request and a state in which the
    shutdown channel is empty unless the quit flag is set, the round
    returns to the loop or ends it; a Quit request either ends the loop or
    gets its one response, the two values alreadyQuit and error text; an
    UpdateState request either ends the loop or gets its one response, the
    update state; an Update request gets no response and does not end the
    loop, which goes on to the next request; any other method type ends the
    loop without a response. *)
Theorem ServeConn_request_outcome s c st methodType c1 :
  NoDup [QuitMethodType; UpdateStateMethodType; UpdateMethodType] ->
  quit_inv st ->
  Decode_MethodType c = Some (methodType, c1) ->
  exists ctl c' st',
    ServeConn_body s c st = Ret (ctl, c') st' /\
    (methodType = QuitMethodType ->
       ctl = Returned \/
       exists alreadyQuit retErr,
         response_of c c' = [GBool alreadyQuit; GString (errToString retErr)]) /\
    (methodType = UpdateStateMethodType ->
       ctl = Returned \/ response_of c c' = [GUint (updateState st)]) /\
    (methodType = UpdateMethodType ->
       ctl = LoopAgain /\ response_of c c' = [] /\ c' = c1) /\
    (methodType <> QuitMethodType -> methodType <> UpdateStateMethodType ->
     methodType <> UpdateMethodType ->
       ctl = Returned /\ response_of c c' = []).
Proof.
  intros Hnd Hinv Hd. unfold ServeConn_body. rewrite Hd.
  apply Decode_MethodType_Some in Hd as [_ Hw1].
  apply list.NoDup_cons in Hnd as [Hq Hnd]. apply list.NoDup_cons in Hnd as [Hu _].
  rewrite !elem_of_cons in Hq. rewrite !elem_of_cons in Hu.
  destruct (Z.eqb_spec methodType QuitMethodType) as [-> | HnQ].
  { destruct (Decode_bool c1) as [[b c2] |] eqn:Hb.
    - apply Decode_bool_Some in Hb as [_ Hw2].
      destruct (Quit_returns s b st Hinv) as ([a e] & st1 & -> & _). simpl.
      destruct (Encode (GBool a) c2) as [c3 |] eqn:He1.
      + destruct (Encode (GString (errToString e)) c3) as [c4 |] eqn:He2.
        * apply Encode_Some in He1 as [He1 _].
          apply Encode_Some in He2 as [He2 _].
          eexists _, _, _. split; [reflexivity |].
          split; [| split; [| split]]; intros; try tauto.
          right. exists a, e. apply response_of_app.
          rewrite He2, He1, Hw2, Hw1, <- app_assoc. reflexivity.
        * eexists _, _, _. split; [reflexivity |].
          split; [| split; [| split]]; intros; tauto.
      + eexists _, _, _. split; [reflexivity |].
        split; [| split; [| split]]; intros; tauto.
    - eexists _, _, _. split; [reflexivity |].
      split; [| split; [| split]]; intros; tauto. }
  destruct (Z.eqb_spec methodType UpdateStateMethodType) as [-> | HnU].
  { simpl. destruct (Encode (GUint (updateState st)) c1) as [c2 |] eqn:He.
    - apply Encode_Some in He as [He _].
      eexists _, _, _. split; [reflexivity |].
      split; [| split; [| split]]; intros; try tauto.
      right. apply response_of_app. rewrite He, Hw1. reflexivity.
    - eexists _, _, _. split; [reflexivity |].
      split; [| split; [| split]]; intros; tauto. }
  destruct (Z.eqb_spec methodType UpdateMethodType) as [-> | HnT].
  { destruct (Update_returns s st) as (st1 & -> & _). simpl.
    eexists _, _, _. split; [reflexivity |].
    split; [| split; [| split]]; intros; try tauto.
    split; [reflexivity |]. split; [| reflexivity].
    apply response_of_same. exact Hw1. }
  eexists _, _, _. split; [reflexivity |].
  split; [| split; [| split]]; intros; try tauto.
  split; [reflexivity |]. apply response_of_same. exact Hw1.
Qed.

(** Nothing that a session can ask for writes [updateState]. *)
Lemma Quit_updateState s b st :
  updateState (result_state (ManagerService_Quit s b st)) = updateState st.
Proof.
  unfold ManagerService_Quit, CompareAndSwap_haveQuit, send_quitManagersChan.
  destruct (elevatedToken (objects st s) =? 0); [reflexivity |].
  destruct (haveQuit st =? 0); simpl; [| reflexivity].
  destruct (quitManagersChan st <? quitManagersChan_cap)%nat; reflexivity.
Qed.

Lemma ServeConn_body_updateState s c st :
  updateState (result_state (ServeConn_body s c st)) = updateState st.
Proof.
  unfold ServeConn_body.
  destruct (Decode_MethodType c) as [[methodType c1] |]; [| reflexivity].
  destruct (methodType =? QuitMethodType).
  { destruct (Decode_bool c1) as [[b c2] |]; [| reflexivity].
    pose proof (Quit_updateState s b st) as Hq.
    destruct (ManagerService_Quit s b st) as [[a e] st1 | st1]; simpl in *;
      [| exact Hq].
    destruct (Encode (GBool a) c2) as [c3 |]; [| exact Hq].
    destruct (Encode (GString (errToString e)) c3); exact Hq. }
  destruct (methodType =? UpdateStateMethodType).
  { simpl. destruct (Encode (GUint (updateState st)) c1); reflexivity. }
  destruct (methodType =? UpdateMethodType); [| reflexivity].
  destruct (Update_returns s st) as (st1 & -> & _ & _ & Hus & _). exact Hus.
Qed.

Lemma ServeConn_loop_updateState fuel s c st r :
  ServeConn_loop fuel s c st = Some r ->
  updateState (result_state r) = updateState st.
Proof.
  revert c st. induction fuel as [| fuel IH]; intros c st; [discriminate |].
  simpl. pose proof (ServeConn_body_updateState s c st) as Hb.
  destruct (ServeConn_body s c st) as [[[] c'] st' | st']; simpl in Hb.
  - intros Hl. apply IH in Hl. congruence.
  - intros Heq. injection Heq as <-. exact Hb.
  - intros Heq. injection Heq as <-. exact Hb.
Qed.

Lemma relay_updateState progress st :
  updateState (result_state (relay progress st)) = updateState st.
Proof.
  revert st. induction progress as [| dp rest IH]; intros st; [reflexivity |].
  simpl. unfold IPCServerNotifyUpdateProgress.
  match goal with |- context [notifyAll ?nt ?a ?i st] =>
    destruct (NotifyFacts.notifyAll_spec nt a i st)
      as (st1 & -> & _ & _ & Hus & _) end.
  simpl. destruct (Complete dp || bool_decide (Error dp <> None)).
  - exact Hus.
  - rewrite IH. exact Hus.
Qed.

Lemma run_goroutine_updateState g st :
  updateState (result_state (run_goroutine g st)) = updateState st.
Proof.
  destruct g as [m buf | progress]; simpl.
  - unfold deliver. destruct (events (objects st m)); reflexivity.
  - apply relay_updateState.
Qed.

End WithTypes.

End ServeFacts.

(** ** The update scheduler *)

Module SchedulerFacts.
Import Time Managers.
Local Open Scope Z_scope.

Ltac int64_side :=
  unfold in_int64, Hour, Minute, Second, Millisecond, Microsecond, Nanosecond;
  lia.

(** A jittered sleep is one sleep, within its bounds, that uses up one
    random word and changes nothing else. *)
Lemma jitterSleep_spec h min max st :
  in_int64 min -> in_int64 max -> min <= max -> max - min < 2 ^ 63 - 1 ->
  exists d,
    within d min max /\
    trace (jitterSleep h min max st) = trace st ++ [EvSleep d] /\
    fastrandCalls (jitterSleep h min max st) = S (fastrandCalls st) /\
    updateState (jitterSleep h min max st) = updateState st /\
    goroutines (jitterSleep h min max st) = goroutines st.
Proof.
  intros Hmin Hmax Hle Hrange.
  exists (jitterDuration (fastrand h (fastrandCalls st)) min max).
  split; [apply JitterFacts.jitterDuration_within; assumption |].
  repeat split; reflexivity.
Qed.

Section WithTypes.
Context `{IpcTypes}.

Lemma body_found h res noError st :
  err res = None -> update res <> None ->
  exists st',
    checkForUpdates_body h res noError false st = Ret (noError, true) st' /\
    updateState st' = UpdateStateFoundUpdate /\
    fastrandCalls st' = fastrandCalls st /\
    trace st' = trace st ++
      [EvCheckForUpdate;
       EvNotifyAll UpdateFoundNotificationType false
                   [GUint UpdateStateFoundUpdate]].
Proof.
  intros Herr Hupd. unfold checkForUpdates_body.
  rewrite (bool_decide_eq_true_2 _ Herr), (bool_decide_eq_true_2 _ Hupd).
  simpl. unfold IPCServerNotifyUpdateFound.
  match goal with |- context [notifyAll ?nt ?a ?i ?s] =>
    destruct (NotifyFacts.notifyAll_spec nt a i s)
      as (st' & -> & _ & Htr & Hus & _ & _ & _ & _ & Hfr) end.
  simpl. exists st'. split; [reflexivity |]. split; [exact Hus |].
  split; [exact Hfr |]. rewrite Htr. simpl. rewrite <- app_assoc. reflexivity.
Qed.

Lemma body_error h res noError st :
  err res <> None ->
  exists st' d,
    checkForUpdates_body h res noError false st = Ret (false, false) st' /\
    trace st' = trace st ++ [EvCheckForUpdate; EvSleep d] /\
    (if noError then within d (Minute * 4) (Minute * 6)
     else within d (Minute * 25) (Minute * 30)) /\
    updateState st' = updateState st.
Proof.
  intros Herr. unfold checkForUpdates_body.
  assert (Hnone : bool_decide (err res = None) = false)
    by (apply bool_decide_eq_false_2; exact Herr).
  rewrite Hnone, (bool_decide_eq_true_2 _ Herr). simpl.
  destruct noError.
  - destruct (jitterSleep_spec h (Minute * 4) (Minute * 6)
                (log EvCheckForUpdate st))
      as (d & Hd & Htr & _ & Hus & _); try int64_side.
    eexists _, d. split; [reflexivity |]. rewrite Htr. simpl.
    rewrite <- app_assoc. auto.
  - destruct (jitterSleep_spec h (Minute * 25) (Minute * 30)
                (log EvCheckForUpdate st))
      as (d & Hd & Htr & _ & Hus & _); try int64_side.
    eexists _, d. split; [reflexivity |]. rewrite Htr. simpl.
    rewrite <- app_assoc. auto.
Qed.

Lemma body_hourly h res noError didNotify st :
  didNotify = true \/ (err res = None /\ update res = None) ->
  exists st' d,
    checkForUpdates_body h res noError didNotify st
    = Ret (noError, didNotify) st' /\
    trace st' = trace st ++ [EvCheckForUpdate; EvSleep d] /\
    within d (Hour - Minute * 3) (Hour + Minute * 3) /\
    updateState st' = updateState st.
Proof.
  intros Hcase. unfold checkForUpdates_body.
  destruct (jitterSleep_spec h (Hour - Minute * 3) (Hour + Minute * 3)
              (log EvCheckForUpdate st))
    as (d & Hd & Htr & _ & Hus & _); try int64_side.
  assert (Hfst : bool_decide (err res = None) && bool_decide (update res <> None)
                 && negb didNotify = false).
  { destruct Hcase as [-> | [_ Hu]]; [apply andb_false_r |].
    rewrite (bool_decide_eq_false_2 (update res <> None)) by tauto.
    rewrite andb_false_r. reflexivity. }
  assert (Hsnd : bool_decide (err res <> None) && negb didNotify = false).
  { destruct Hcase as [-> | [He _]]; [apply andb_false_r |].
    rewrite (bool_decide_eq_false_2 (err res <> None)) by tauto. reflexivity. }
  rewrite Hfst, Hsnd.
  eexists _, d. split; [reflexivity |]. rewrite Htr. simpl.
  rewrite <- app_assoc. auto.
Qed.

(** Once the loop has notified, every round is a check and an hourly
    sleep. *)
Lemma loop_notified h checks noError st :
  exists st' t,
    checkForUpdates_loop h checks noError true st = Ret (noError, true) st' /\
    trace st' = trace st ++ t /\
    hourly t /\
    length t = (2 * length checks)%nat /\
    updateState st' = updateState st.
Proof.
  revert st. induction checks as [| res rest IH]; intros st.
  - exists st, []. simpl. rewrite app_nil_r. repeat split; constructor.
  - destruct (body_hourly h res noError true st (or_introl eq_refl))
      as (st1 & d & Hb & Htr1 & Hd & Hus1).
    destruct (IH st1) as (st' & t & Hl & Htr & Hh & Hlen & Hus).
    exists st', (EvCheckForUpdate :: EvSleep d :: t).
    simpl. rewrite Hb. simpl. split; [exact Hl |].
    split; [rewrite Htr, Htr1, <- app_assoc; reflexivity |].
    split; [constructor; assumption |].
    split; [simpl; lia | congruence].
Qed.

(** A run of errors while nothing has been notified: a check and a sleep
    per error, the first sleep by the value of [noError], the others within
    25 to 30 minutes. *)
Lemma loop_errors h errs noError st :
  Forall (fun res => err res <> None) errs ->
  exists st' t,
    checkForUpdates_loop h errs noError false st
    = Ret (if errs is [] then noError else false, false) st' /\
    trace st' = trace st ++ t /\
    filter (fun e => is_notify e = true) t = [] /\
    length (filter (fun e => is_check e = true) t) = length errs /\
    length (sleeps t) = length errs /\
    updateState st' = updateState st /\
    match sleeps t with
    | [] => errs = []
    | d :: ds =>
        (if noError then within d (Minute * 4) (Minute * 6)
         else within d (Minute * 25) (Minute * 30)) /\
        Forall (fun d' => within d' (Minute * 25) (Minute * 30)) ds
    end.
Proof.
  intros Hall. revert noError st.
  induction Hall as [| res rest Hres _ IH]; intros noError st.
  - exists st, []. simpl. rewrite app_nil_r. repeat split; reflexivity.
  - destruct (body_error h res noError st Hres)
      as (st1 & d & Hb & Htr1 & Hd & Hus1).
    destruct (IH false st1) as (st' & t & Hl & Htr & Hn & Hc & Hs & Hus & Hds).
    exists st', (EvCheckForUpdate :: EvSleep d :: t).
    split.
    { cbn [checkForUpdates_loop]. rewrite Hb. cbn [bind]. rewrite Hl.
      destruct rest; reflexivity. }
    split; [rewrite Htr, Htr1, <- app_assoc; reflexivity |].
    split.
    { rewrite !filter_cons_False by (simpl; discriminate). exact Hn. }
    split.
    { rewrite filter_cons_True by reflexivity.
      rewrite filter_cons_False by (simpl; discriminate).
      cbn [length]. rewrite Hc. reflexivity. }
    unfold sleeps in *. cbn [omap list_omap].
    split; [cbn [length]; rewrite Hs; reflexivity |].
    split; [congruence |].
    split; [exact Hd |].
    destruct (omap _ t) as [| d' ds]; [constructor |].
    destruct Hds as [Hd' Hds']. constructor; assumption.
Qed.

Lemma loop_app h l1 l2 noError didNotify st :
  checkForUpdates_loop h (l1 ++ l2) noError didNotify st
  = bind (checkForUpdates_loop h l1 noError didNotify st)
         (fun '(noError', didNotify') st1 =>
            checkForUpdates_loop h l2 noError' didNotify' st1).
Proof.
  revert noError didNotify st. induction l1 as [| res rest IH];
    intros noError didNotify st; [reflexivity |].
  simpl.
  destruct (checkForUpdates_body h res noError didNotify st)
    as [[noError' didNotify'] st1 | st1]; simpl; [apply IH | reflexivity].
Qed.

(** C5, as the code has it: while no update has been notified, a check
    error met with the no-error flag still up sleeps a jittered 4 to 6
    minutes and takes the flag down; a check error met with the flag down
    sleeps a jittered 25 to 30 minutes; a check without error and without
    update sleeps about an hour and leaves the flag as it is, so the flag
    never comes up again.  In particular a run of errors from the start of
    the loop followed by a found update, such as [error, error, error,
    found], sleeps within 4 to 6 minutes once, then within 25 to 30 minutes
    for each further error, and then publishes the found state, exactly
    once and as the last thing. *)
Theorem error_backoff h e1 errs ok found noError st :
  err e1 <> None ->
  Forall (fun res => err res <> None) errs ->
  err ok = None -> update ok = None ->
  err found = None -> update found <> None ->
  (exists st1 d,
     checkForUpdates_body h e1 true false st = Ret (false, false) st1 /\
     trace st1 = trace st ++ [EvCheckForUpdate; EvSleep d] /\
     within d (Minute * 4) (Minute * 6)) /\
  (exists st1 d,
     checkForUpdates_body h e1 false false st = Ret (false, false) st1 /\
     trace st1 = trace st ++ [EvCheckForUpdate; EvSleep d] /\
     within d (Minute * 25) (Minute * 30)) /\
  (exists st1 d,
     checkForUpdates_body h ok noError false st = Ret (noError, false) st1 /\
     trace st1 = trace st ++ [EvCheckForUpdate; EvSleep d] /\
     within d (Hour - Minute * 3) (Hour + Minute * 3)) /\
  (exists st' t d1 ds,
     checkForUpdates_loop h (e1 :: errs ++ [found]) true false st
     = Ret (false, true) st' /\
     trace st' = trace st ++ t /\
     sleeps t = d1 :: ds /\
     within d1 (Minute * 4) (Minute * 6) /\
     Forall (fun d => within d (Minute * 25) (Minute * 30)) ds /\
     length ds = length errs /\
     filter (fun e => is_notify e = true) t
     = [EvNotifyAll UpdateFoundNotificationType false
                    [GUint UpdateStateFoundUpdate]] /\
     list.last t = Some (EvNotifyAll UpdateFoundNotificationType false
                                [GUint UpdateStateFoundUpdate]) /\
     updateState st' = UpdateStateFoundUpdate).
Proof.
  intros He1 Herrs Hok1 Hok2 Hf1 Hf2.
  split; [| split; [| split]].
  - destruct (body_error h e1 true st He1) as (st1 & d & Hb & Htr & Hd & _).
    eauto.
  - destruct (body_error h e1 false st He1) as (st1 & d & Hb & Htr & Hd & _).
    eauto.
  - destruct (body_hourly h ok noError false st (or_intror (conj Hok1 Hok2)))
      as (st1 & d & Hb & Htr & Hd & _).
    eauto.
  - assert (Hall : Forall (fun res => err res <> None) (e1 :: errs))
      by (constructor; assumption).
    destruct (loop_errors h (e1 :: errs) true st Hall)
      as (st1 & t1 & Hl & Htr1 & Hn & _ & Hlen & _ & Hsl).
    destruct (body_found h found false st1 Hf1 Hf2)
      as (st' & Hb & Hus & _ & Htr).
    destruct (sleeps t1) as [| d1 ds] eqn:Hs1; [discriminate |].
    destruct Hsl as [Hd1 Hds].
    exists st', (t1 ++ [EvCheckForUpdate;
                        EvNotifyAll UpdateFoundNotificationType false
                                    [GUint UpdateStateFoundUpdate]]), d1, ds.
    split.
    { change (e1 :: errs ++ [found]) with ((e1 :: errs) ++ [found]).
      rewrite loop_app, Hl. cbn [bind checkForUpdates_loop]. rewrite Hb.
      reflexivity. }
    split; [rewrite Htr, Htr1, <- app_assoc; reflexivity |].
    split; [unfold sleeps in *; rewrite omap_app, Hs1; apply app_nil_r |].
    split; [exact Hd1 |]. split; [exact Hds |].
    split; [simpl in Hlen; lia |].
    split; [rewrite list.filter_app, Hn; reflexivity |].
    split; [| exact Hus].
    change [EvCheckForUpdate;
            EvNotifyAll UpdateFoundNotificationType false
                        [GUint UpdateStateFoundUpdate]]
      with ([EvCheckForUpdate] ++
            [EvNotifyAll UpdateFoundNotificationType false
                         [GUint UpdateStateFoundUpdate]]).
    rewrite app_assoc. apply list.last_snoc.
Qed.

(** C6, as the code has it: a check that finds an update when none has
    been notified sets the state to the found-update state, publishes one
    UpdateFound notification and marks the loop as notified, without
    sleeping: the next check follows at once.  From then on every check,
    whatever it returns, is followed by one sleep of an hour, three minutes
    more or less, and by no notification; the state stays as it is. *)
Theorem found_update_notified_once h found rest noError st :
  err found = None -> update found <> None ->
  exists st' t,
    checkForUpdates_loop h (found :: rest) noError false st
    = Ret (noError, true) st' /\
    updateState st' = UpdateStateFoundUpdate /\
    trace st' = trace st ++
      [EvCheckForUpdate;
       EvNotifyAll UpdateFoundNotificationType false
                   [GUint UpdateStateFoundUpdate]] ++ t /\
    hourly t /\
    length t = (2 * length rest)%nat.
Proof.
  intros Hf1 Hf2.
  destruct (body_found h found noError st Hf1 Hf2) as (st1 & Hb & Hus1 & _ & Htr1).
  destruct (loop_notified h rest noError st1) as (st' & t & Hl & Htr & Hh & Hlen & Hus).
  exists st', t. cbn [checkForUpdates_loop]. rewrite Hb. cbn [bind].
  split; [exact Hl |]. split; [congruence |].
  split; [rewrite Htr, Htr1, <- app_assoc; reflexivity |]. auto.
Qed.

End WithTypes.

Section Lockout.
Context `{IpcTypes} `{Collaborators}.

(** C7: on a build that is not official, with the override variable not
    set to 1, the scheduler sets the state to
    UpdatesDisabledUnofficialBuild, publishes one UpdateFound notification
    that carries this state, and returns: whatever the checker would have
    answered it is never called, and nothing sleeps.  The state stays so
    through every connection served and every goroutine run afterwards. *)
Theorem unofficial_build_lockout h checks st :
  IsRunningOfficialVersion h = false ->
  Getenv_PANGOLIN_ALLOW_DEV_UPDATES h <> "1"%string ->
  exists st',
    checkForUpdates h checks st = Ret SchedReturned st' /\
    updateState st' = UpdateStateUpdatesDisabledUnofficialBuild /\
    trace st' = trace st ++
      [EvNotifyAll UpdateFoundNotificationType false
                   [GUint UpdateStateUpdatesDisabledUnofficialBuild]] /\
    fastrandCalls st' = fastrandCalls st /\
    (forall s c r,
       ManagerService_ServeConn s c st' = Some r ->
       updateState (result_state r)
       = UpdateStateUpdatesDisabledUnofficialBuild) /\
    (forall g,
       updateState (result_state (run_goroutine g st'))
       = UpdateStateUpdatesDisabledUnofficialBuild).
Proof.
  intros Hoff Henv. unfold checkForUpdates. rewrite Hoff.
  apply String.eqb_neq in Henv. rewrite Henv. simpl.
  unfold IPCServerNotifyUpdateFound.
  match goal with |- context [notifyAll ?nt ?a ?i ?s] =>
    destruct (NotifyFacts.notifyAll_spec nt a i s)
      as (st' & -> & _ & Htr & Hus & _ & _ & _ & _ & Hfr) end.
  simpl in *. exists st'. split; [reflexivity |]. split; [exact Hus |].
  split; [exact Htr |]. split; [exact Hfr |]. split.
  - intros s c r Hr. unfold ManagerService_ServeConn in Hr.
    apply ServeFacts.ServeConn_loop_updateState in Hr. congruence.
  - intros g. rewrite ServeFacts.run_goroutine_updateState. exact Hus.
Qed.

End Lockout.

End SchedulerFacts.

(** ** The jittered sleep *)

Module SleepFacts.
Import Time Managers.
Local Open Scope Z_scope.

(** C9, as the code has it: for durations min <= max that span fewer than
    2^32 milliseconds, jitterSleep(min, max) sleeps once, for min plus a
    whole number of milliseconds, a duration within [min, max]; it draws one
    random word, its own, for that; every min plus k milliseconds that
    leaves a whole millisecond up to max is the duration for some value of
    the word; and the durations are drawn evenly: the 32-bit words that
    lead to one of them are a run of 2^32 / n words or one more, n being the
    number of milliseconds the word is scaled to. *)
Theorem jitterSleep_range h min max st :
  in_int64 min -> in_int64 max -> min <= max ->
  max - min + 1 < 2 ^ 32 * Millisecond ->
  (exists k, 0 <= k /\
     trace (jitterSleep h min max st)
     = trace st ++ [EvSleep (min + k * Millisecond)] /\
     within (min + k * Millisecond) min max) /\
  fastrandCalls (jitterSleep h min max st) = S (fastrandCalls st) /\
  (forall k, 0 <= k -> min + (k + 1) * Millisecond <= max ->
     exists r, 0 <= r < 2 ^ 32 /\
       forall h', fastrand h' (fastrandCalls st) = r ->
         trace (jitterSleep h' min max st)
         = trace st ++ [EvSleep (min + k * Millisecond)]) /\
  (forall k h',
     0 < jitterSpan min max ->
     0 <= fastrand h' (fastrandCalls st) < 2 ^ 32 ->
     (trace (jitterSleep h' min max st)
      = trace st ++ [EvSleep (min + k * Millisecond)]
      <-> firstWord (jitterSpan min max) k
          <= fastrand h' (fastrandCalls st)
          < firstWord (jitterSpan min max) (k + 1)) /\
     2 ^ 32 / jitterSpan min max
     <= firstWord (jitterSpan min max) (k + 1)
        - firstWord (jitterSpan min max) k
     <= 2 ^ 32 / jitterSpan min max + 1).
Proof.
  intros Hmin Hmax Hle Hrange.
  assert (Hms : Millisecond = 1000000) by reflexivity.
  assert (Hr63 : max - min < 2 ^ 63 - 1) by (rewrite Hms in *; lia).
  split; [| split; [| split]].
  - destruct (JitterFacts.jitterDuration_eq (fastrand h (fastrandCalls st))
                min max Hmin Hmax Hle Hr63) as (k & Hk & Heq & Hb & _).
    exists k. split; [exact Hk |]. split; [| exact Hb].
    unfold jitterSleep. simpl. rewrite Heq. reflexivity.
  - reflexivity.
  - intros k Hk0 Hk1.
    destruct (JitterFacts.jitterDuration_attains min max k
                Hmin Hmax Hle Hrange Hk0 Hk1) as (r & Hr & Heq).
    exists r. split; [exact Hr |]. intros h' Hh'.
    unfold jitterSleep. simpl. rewrite Hh', Heq. reflexivity.
  - intros k h' Hspan Hr. split; [| apply TimeFacts.firstWord_gap; exact Hspan].
    rewrite <- (JitterFacts.jitterDuration_words _ min max k
                  Hmin Hmax Hle Hr63 Hspan Hr).
    unfold jitterSleep. simpl. split.
    + intros Heq. apply app_inv_head in Heq. injection Heq as Heq. exact Heq.
    + intros ->. reflexivity.
Qed.

Lemma jitterSleep_range_witness :
  (exists k, 0 <= k /\
     trace (jitterSleep exampleHost (Minute * 4) (Minute * 6) exampleState)
     = trace exampleState ++ [EvSleep (Minute * 4 + k * Millisecond)] /\
     within (Minute * 4 + k * Millisecond) (Minute * 4) (Minute * 6)) /\
  fastrandCalls (jitterSleep exampleHost (Minute * 4) (Minute * 6) exampleState)
  = S (fastrandCalls exampleState) /\
  (forall k, 0 <= k -> Minute * 4 + (k + 1) * Millisecond <= Minute * 6 ->
     exists r, 0 <= r < 2 ^ 32 /\
       forall h', fastrand h' (fastrandCalls exampleState) = r ->
         trace (jitterSleep h' (Minute * 4) (Minute * 6) exampleState)
         = trace exampleState ++ [EvSleep (Minute * 4 + k * Millisecond)]) /\
  (forall k h',
     0 < jitterSpan (Minute * 4) (Minute * 6) ->
     0 <= fastrand h' (fastrandCalls exampleState) < 2 ^ 32 ->
     (trace (jitterSleep h' (Minute * 4) (Minute * 6) exampleState)
      = trace exampleState ++ [EvSleep (Minute * 4 + k * Millisecond)]
      <-> firstWord (jitterSpan (Minute * 4) (Minute * 6)) k
          <= fastrand h' (fastrandCalls exampleState)
          < firstWord (jitterSpan (Minute * 4) (Minute * 6)) (k + 1)) /\
     2 ^ 32 / jitterSpan (Minute * 4) (Minute * 6)
     <= firstWord (jitterSpan (Minute * 4) (Minute * 6)) (k + 1)
        - firstWord (jitterSpan (Minute * 4) (Minute * 6)) k
     <= 2 ^ 32 / jitterSpan (Minute * 4) (Minute * 6) + 1).
Proof.
  apply (jitterSleep_range exampleHost (Minute * 4) (Minute * 6) exampleState).
  - unfold in_int64, Minute, Second, Millisecond, Microsecond, Nanosecond. lia.
  - unfold in_int64, Minute, Second, Millisecond, Microsecond, Nanosecond. lia.
  - unfold Minute, Second, Millisecond, Microsecond, Nanosecond. lia.
  - unfold Minute, Second, Millisecond, Microsecond, Nanosecond. lia.
Defined.

(** C9 as stated fails: between 4 and 6 minutes, no random word makes
    jitterSleep sleep the 6 minutes of the upper bound, nor 4 minutes and a
    nanosecond. *)
Lemma jitterSleep_never_max :
  Minute * 4 <= Minute * 6 /\
  within (Minute * 4 + Nanosecond) (Minute * 4) (Minute * 6) /\
  ~ (exists h,
       trace (jitterSleep h (Minute * 4) (Minute * 6) exampleState)
       = trace exampleState ++ [EvSleep (Minute * 6)]) /\
  ~ (exists h,
       trace (jitterSleep h (Minute * 4) (Minute * 6) exampleState)
       = trace exampleState ++ [EvSleep (Minute * 4 + Nanosecond)]).
Proof.
  assert (Hmin : in_int64 (Minute * 4))
    by (unfold in_int64, Minute, Second, Millisecond, Microsecond, Nanosecond;
        lia).
  assert (Hmax : in_int64 (Minute * 6))
    by (unfold in_int64, Minute, Second, Millisecond, Microsecond, Nanosecond;
        lia).
  assert (Hv : Minute * 4 = 240000000000 /\ Minute * 6 = 360000000000 /\
               Millisecond = 1000000 /\ Nanosecond = 1)
    by (repeat split; reflexivity).
  destruct Hv as (H4 & H6 & Hms & Hns).
  split; [lia |]. split; [unfold within; lia |]. split.
  - intros [h Heq]. unfold jitterSleep in Heq. simpl in Heq.
    injection Heq as Heq.
    pose proof (JitterFacts.jitterDuration_below_max (fastrand h 0%nat)
                  (Minute * 4) (Minute * 6) Hmin Hmax ltac:(lia) ltac:(lia)).
    lia.
  - intros [h Heq]. unfold jitterSleep in Heq. simpl in Heq.
    injection Heq as Heq.
    destruct (JitterFacts.jitterDuration_eq (fastrand h 0%nat)
                (Minute * 4) (Minute * 6) Hmin Hmax ltac:(lia) ltac:(lia))
      as (k & Hk & Hd & _).
    rewrite Hd in Heq. lia.
Qed.

End SleepFacts.

(** ** The process as a whole *)

Module ProcessFacts.
Import Time Managers.
Local Open Scope Z_scope.

Lemma same_quit_inv st st' : same_quit st st' -> quit_inv st -> quit_inv st'.
Proof. unfold quit_inv. intros [-> ->] Hinv. exact Hinv. Qed.


Section WithTypes.
Context `{IpcTypes} `{Collaborators}.





Lemma ServeConn_body_quit_inv s c st :
  quit_inv st -> quit_inv (result_state (ServeConn_body s c st)).
Proof.
  intros Hinv. unfold ServeConn_body.
  destruct (Decode_MethodType c) as [[methodType c1] |]; [| exact Hinv].
  destruct (methodType =? QuitMethodType).
  { destruct (Decode_bool c1) as [[b c2] |]; [| exact Hinv].
    destruct (ServeFacts.Quit_returns s b st Hinv)
      as ([a e] & st1 & -> & Hinv1 & _).
    simpl. destruct (Encode (GBool a) c2) as [c3 |]; [| exact Hinv1].
    destruct (Encode (GString (errToString e)) c3); exact Hinv1. }
  destruct (methodType =? UpdateStateMethodType).
  { simpl. destruct (Encode (GUint (updateState st)) c1); exact Hinv. }
  destruct (methodType =? UpdateMethodType); [| exact Hinv].
  destruct (ServeFacts.Update_returns s st) as (st1 & -> & Hq & Hc & _).
  simpl. apply (same_quit_inv st); [split; assumption | exact Hinv].
Qed.




End WithTypes.

End ProcessFacts.

(** ** Quit calls that run at the same time *)

Module ConcurrentFacts.
Import Time Managers.
Local Open Scope Z_scope.

(** A call that runs alone, from its entry and with the channel empty while
    the flag is unset, steps to the result of [ManagerService_Quit]. *)
Lemma quit_steps_alone s stopTunnelsOnQuit st :
  quit_inv st ->
  exists alreadyQuit err st',
    ManagerService_Quit s stopTunnelsOnQuit st = Ret (alreadyQuit, err) st' /\
    rtc pool_step ([(s, QEntry)], st) ([(s, QReturned alreadyQuit err)], st').
Proof.
  intros Hinv. unfold ManagerService_Quit.
  destruct (elevatedToken (objects st s) =? 0) eqn:Htok.
  - eexists _, _, _. split; [reflexivity |].
    apply rtc_once. apply (pool_step_call [] s QEntry []).
    simpl. rewrite Htok. reflexivity.
  - unfold CompareAndSwap_haveQuit.
    destruct (Z.eqb_spec (haveQuit st) 0) as [Hq | Hq]; simpl.
    + unfold send_quitManagersChan. simpl. rewrite (Hinv Hq). simpl.
      eexists _, _, _. split; [reflexivity |].
      eapply rtc_l.
      { apply (pool_step_call [] s QEntry []). simpl. rewrite Htok.
        reflexivity. }
      eapply rtc_l.
      { apply (pool_step_call [] s QSwap []). simpl.
        unfold CompareAndSwap_haveQuit. rewrite Hq. reflexivity. }
      eapply rtc_l.
      { apply (pool_step_call [] s QRemove []). reflexivity. }
      apply rtc_once. apply (pool_step_call [] s QSend []). simpl.
      unfold send_quitManagersChan. simpl. rewrite (Hinv Hq). reflexivity.
    + eexists _, _, _. split; [reflexivity |].
      eapply rtc_l.
      { apply (pool_step_call [] s QEntry []). simpl. rewrite Htok.
        reflexivity. }
      apply rtc_once. apply (pool_step_call [] s QSwap []). simpl.
      unfold CompareAndSwap_haveQuit.
      destruct (Z.eqb_spec (haveQuit st) 0); [contradiction | reflexivity].
Qed.







End ConcurrentFacts.

(** ** The statements at concrete sessions, connections and check results *)

Module Examples.
Import Time Managers.
Local Open Scope Z_scope.
Local Existing Instance exampleTypes.
Local Existing Instance exampleCollaborators.

Lemma exampleTypes_NoDup :
  NoDup [QuitMethodType; UpdateStateMethodType; UpdateMethodType].
Proof.
  repeat (apply list.NoDup_cons; split); try apply NoDup_nil_2;
    rewrite ?elem_of_cons, ?elem_of_nil; simpl; intuition discriminate.
Qed.

Lemma exampleState_quit_inv : quit_inv exampleState.
Proof. intros _. reflexivity. Qed.

Lemma ServeConn_request_outcome_witness :
  exists ctl c' st',
    ServeConn_body 1%positive updateThenState exampleState
    = Ret (ctl, c') st' /\
    (UpdateMethodType = QuitMethodType ->
       ctl = Returned \/
       exists alreadyQuit retErr,
         response_of updateThenState c'
         = [GBool alreadyQuit; GString (errToString retErr)]) /\
    (UpdateMethodType = UpdateStateMethodType ->
       ctl = Returned \/
       response_of updateThenState c' = [GUint (updateState exampleState)]) /\
    (UpdateMethodType = UpdateMethodType ->
       ctl = LoopAgain /\ response_of updateThenState c' = [] /\
       c' = mkConn [GInt UpdateStateMethodType] [] None) /\
    (UpdateMethodType <> QuitMethodType ->
     UpdateMethodType <> UpdateStateMethodType ->
     UpdateMethodType <> UpdateMethodType ->
       ctl = Returned /\ response_of updateThenState c' = []).
Proof.
  apply (ServeFacts.ServeConn_request_outcome 1%positive updateThenState
           exampleState UpdateMethodType
           (mkConn [GInt UpdateStateMethodType] [] None)).
  - exact exampleTypes_NoDup.
  - exact exampleState_quit_inv.
  - reflexivity.
Defined.

(** C1 as stated fails for Update: the request of an elevated session is
    decoded and served (the download is started), nothing is encoded for it
    and the loop does not return but goes on to the next request.  Over the
    whole connection two requests are decoded and one response is
    written, the one to the UpdateState request. *)
Lemma Update_request_gets_no_response :
  (exists c' st',
     Decode_MethodType updateThenState
     = Some (UpdateMethodType, mkConn [GInt UpdateStateMethodType] [] None) /\
     ServeConn_body 1%positive updateThenState exampleState
     = Ret (LoopAgain, c') st' /\
     response_of updateThenState c' = [] /\
     trace st' = [EvDownloadVerifyAndExecute 1000]) /\
  (exists st',
     ManagerService_ServeConn 1%positive updateThenState exampleState
     = Some (Ret (mkConn [] [GUint UpdateStateUnknown] None) st')).
Proof.
  split.
  - eexists _, _. split; [reflexivity |]. split; [reflexivity |].
    split; reflexivity.
  - eexists. reflexivity.
Qed.

Lemma notification_privilege_scopes_witness :
  (forall dp, exists st',
      IPCServerNotifyUpdateProgress dp exampleState = Ret tt st' /\
      trace st' = trace exampleState ++
        [EvNotifyAll UpdateProgressNotificationType true (progressFields dp)] /\
      (elevatedToken (objects exampleState 2%positive) <> 0 ->
         GoDeliver 2%positive (progressBuf dp) ∈ goroutines st') /\
      (elevatedToken (objects exampleState 2%positive) = 0 ->
         exists new, goroutines st' = goroutines exampleState ++ new /\
           (forall buf, GoDeliver 2%positive buf ∉ new) /\
           (forall sched st2 f buf,
              sched ≡ₚ deliveries new ->
              EvWrite 2%positive f buf ∈ trace (run_deliveries sched st2) ->
              EvWrite 2%positive f buf ∈ trace st2))) /\
  (forall u, exists st',
      IPCServerNotifyUpdateFound u exampleState = Ret tt st' /\
      trace st' = trace exampleState ++
        [EvNotifyAll UpdateFoundNotificationType false [GUint u]] /\
      GoDeliver 2%positive [GInt UpdateFoundNotificationType; GUint u]
        ∈ goroutines st') /\
  (exists st',
      IPCServerNotifyManagerStopping exampleState = Ret tt st' /\
      trace st' = trace exampleState ++
        [EvNotifyAll ManagerStoppingNotificationType false [];
         EvSleep (Millisecond * 200)] /\
      GoDeliver 2%positive [GInt ManagerStoppingNotificationType]
        ∈ goroutines st').
Proof.
  apply (NotifyFacts.notification_privilege_scopes exampleState 2%positive).
  exists true. vm_compute. reflexivity.
Defined.

Lemma error_backoff_witness :
  exists st' t d1 ds,
    checkForUpdates_loop exampleHost
      [checkError; checkError; checkError; checkFound] true false exampleState
    = Ret (false, true) st' /\
    trace st' = trace exampleState ++ t /\
    sleeps t = d1 :: ds /\
    within d1 (Minute * 4) (Minute * 6) /\
    Forall (fun d => within d (Minute * 25) (Minute * 30)) ds /\
    length ds = 2%nat /\
    filter (fun e => is_notify e = true) t
    = [EvNotifyAll UpdateFoundNotificationType false
                   [GUint UpdateStateFoundUpdate]] /\
    list.last t = Some (EvNotifyAll UpdateFoundNotificationType false
                                    [GUint UpdateStateFoundUpdate]) /\
    updateState st' = UpdateStateFoundUpdate.
Proof.
  apply (SchedulerFacts.error_backoff exampleHost checkError
           [checkError; checkError] checkNoUpdate checkFound true exampleState).
  - discriminate.
  - repeat constructor; discriminate.
  - reflexivity.
  - reflexivity.
  - reflexivity.
  - discriminate.
Defined.

(** C5 as stated fails: in the run [error, no update, error] the second
    error is the first one since the check that succeeded, and the loop
    sleeps 25 minutes after it, not 4 to 6. *)
Lemma error_after_success_sleeps_long :
  exists st',
    checkForUpdates exampleHost [checkError; checkNoUpdate; checkError]
                    exampleState
    = Ret (SchedLooping false false) st' /\
    trace st' = [EvCheckForUpdate; EvSleep (Minute * 4);
                 EvCheckForUpdate; EvSleep (Hour - Minute * 3);
                 EvCheckForUpdate; EvSleep (Minute * 25)] /\
    ~ within (Minute * 25) (Minute * 4) (Minute * 6).
Proof.
  eexists. split; [reflexivity |]. split; [reflexivity |].
  unfold within, Minute, Second, Millisecond, Microsecond, Nanosecond. lia.
Qed.

Lemma found_update_notified_once_witness :
  exists st' t,
    checkForUpdates_loop exampleHost
      (checkFound :: [checkError; checkNoUpdate; checkFound])
      true false exampleState
    = Ret (true, true) st' /\
    updateState st' = UpdateStateFoundUpdate /\
    trace st' = trace exampleState ++
      [EvCheckForUpdate;
       EvNotifyAll UpdateFoundNotificationType false
                   [GUint UpdateStateFoundUpdate]] ++ t /\
    hourly t /\
    length t = (2 * length [checkError; checkNoUpdate; checkFound])%nat.
Proof.
  apply (SchedulerFacts.found_update_notified_once exampleHost checkFound
           [checkError; checkNoUpdate; checkFound] true exampleState).
  - reflexivity.
  - discriminate.
Defined.

(** C6 as stated fails: after the notification of the found update the
    loop does not sleep; the next thing it does is the next check. *)
Lemma found_update_checks_again_at_once :
  exists st',
    checkForUpdates exampleHost [checkFound; checkNoUpdate] exampleState
    = Ret (SchedLooping true true) st' /\
    trace st' = [EvCheckForUpdate;
                 EvNotifyAll UpdateFoundNotificationType false
                             [GUint UpdateStateFoundUpdate];
                 EvCheckForUpdate; EvSleep (Hour - Minute * 3)] /\
    ~ sleeps_after_notifying (trace st').
Proof.
  eexists. split; [reflexivity |]. split; [reflexivity |].
  intros Hs.
  destruct (Hs [EvCheckForUpdate] UpdateFoundNotificationType false
               [GUint UpdateStateFoundUpdate] EvCheckForUpdate
               [EvSleep (Hour - Minute * 3)] eq_refl) as (d & Hd & _).
  discriminate.
Qed.

Lemma unofficial_build_lockout_witness :
  exists st',
    checkForUpdates unofficialHost
      [checkError; checkError; checkError; checkFound] exampleState
    = Ret SchedReturned st' /\
    updateState st' = UpdateStateUpdatesDisabledUnofficialBuild /\
    trace st' = trace exampleState ++
      [EvNotifyAll UpdateFoundNotificationType false
                   [GUint UpdateStateUpdatesDisabledUnofficialBuild]] /\
    fastrandCalls st' = fastrandCalls exampleState /\
    (forall s c r,
       ManagerService_ServeConn s c st' = Some r ->
       updateState (result_state r)
       = UpdateStateUpdatesDisabledUnofficialBuild) /\
    (forall g,
       updateState (result_state (run_goroutine g st'))
       = UpdateStateUpdatesDisabledUnofficialBuild).
Proof.
  apply (SchedulerFacts.unofficial_build_lockout unofficialHost
           [checkError; checkError; checkError; checkFound] exampleState).
  - reflexivity.
  - discriminate.
Defined.

End Examples.

(** ** The rest of the IPC server: connections, broadcasts and the relay *)

Module ServerFacts.
Import Time Managers Server.
Local Open Scope Z_scope.

(** What a call of session [s] may change: the flag, the channel, the
    events handle of [s] and the place of [s] in the registry.  It keeps
    every token, every other session's object and registration, the update
    state, the goroutines and the trace of everything but downloads. *)
Lemma Quit_frame s b st m :
  let st' := result_state (ManagerService_Quit s b st) in
  elevatedToken (objects st' m) = elevatedToken (objects st m) /\
  (m <> s -> objects st' m = objects st m /\
             managerServices st' !! m = managerServices st !! m).
Proof.
  unfold ManagerService_Quit, CompareAndSwap_haveQuit, send_quitManagersChan.
  destruct (elevatedToken (objects st s) =? 0); [simpl; auto |].
  destruct (haveQuit st =? 0); simpl; [| auto].
  assert (Hfr :
    elevatedToken (objects (removeFromNotifications s (set_haveQuit 1 st)) m)
    = elevatedToken (objects st m) /\
    (m <> s ->
     objects (removeFromNotifications s (set_haveQuit 1 st)) m = objects st m /\
     managerServices (removeFromNotifications s (set_haveQuit 1 st)) !! m
     = managerServices st !! m)).
  { split.
    - rewrite QuitFacts.removeFromNotifications_token. reflexivity.
    - intros Hm. simpl. split.
      + rewrite fn_lookup_insert_ne by congruence. reflexivity.
      + apply lookup_delete_ne. congruence. }
  destruct (quitManagersChan st <? quitManagersChan_cap)%nat; exact Hfr.
Qed.

Lemma Quit_without_token s b st :
  elevatedToken (objects st s) = 0 ->
  ManagerService_Quit s b st = Ret (false, Some ERROR_ACCESS_DENIED) st.
Proof. intros Htok. unfold ManagerService_Quit. rewrite Htok. reflexivity. Qed.


(** X4: the session that has quit is out of the notifications for good: a
    delivery for it, also one that was started before it quit, writes
    nothing, and no broadcast made afterwards starts a delivery for it. *)
Theorem Quit_silences_caller s stopTunnelsOnQuit st :
  elevatedToken (objects st s) <> 0 ->
  haveQuit st = 0 -> quitManagersChan st = 0%nat ->
  exists st',
    ManagerService_Quit s stopTunnelsOnQuit st = Ret (false, None) st' /\
    (forall buf, deliver s buf st' = Ret tt st') /\
    (forall notificationType adminOnly ifaces,
       exists st2 new,
         notifyAll notificationType adminOnly ifaces st' = Ret tt st2 /\
         goroutines st2 = goroutines st' ++ new /\
         forall buf, GoDeliver s buf ∉ new).
Proof.
  intros Htok Hq Hc. eexists. split; [apply QuitFacts.Quit_first; assumption |].
  set (st' := set_quitManagersChan 1
                (removeFromNotifications s (set_haveQuit 1 st))).
  assert (Hev : events (objects st' s) = None)
    by (simpl; rewrite fn_lookup_insert; reflexivity).
  assert (Hreg : managerServices st' !! s = None)
    by (simpl; apply lookup_delete_eq).
  split.
  - intros buf. unfold deliver. rewrite Hev. reflexivity.
  - intros nt adminOnly ifaces.
    destruct (NotifyFacts.notifyAll_spec nt adminOnly ifaces st')
      as (st2 & Hret & Hgo & _).
    eexists _, _. split; [exact Hret |]. split; [exact Hgo |].
    intros buf Hin. apply list_elem_of_fmap in Hin as (m & Heq & Hm).
    injection Heq as <- _.
    apply NotifyFacts.elem_of_notifyTargets in Hm as [[v Hv] _].
    rewrite Hreg in Hv. discriminate.
Qed.


Section WithTypes.
Context `{IpcTypes} `{Collaborators}.

Lemma ServeConn_body_frame s c st m :
  let st' := result_state (ServeConn_body s c st) in
  elevatedToken (objects st' m) = elevatedToken (objects st m) /\
  (m <> s -> objects st' m = objects st m /\
             managerServices st' !! m = managerServices st !! m).
Proof.
  unfold ServeConn_body.
  destruct (Decode_MethodType c) as [[methodType c1] |]; [| simpl; auto].
  destruct (methodType =? QuitMethodType).
  { destruct (Decode_bool c1) as [[b c2] |]; [| simpl; auto].
    pose proof (Quit_frame s b st m) as Hq.
    destruct (ManagerService_Quit s b st) as [[a e] st1 | st1]; simpl in *;
      [| exact Hq].
    destruct (Encode (GBool a) c2) as [c3 |]; [| exact Hq].
    destruct (Encode (GString (errToString e)) c3); exact Hq. }
  destruct (methodType =? UpdateStateMethodType).
  { simpl. destruct (Encode (GUint (updateState st)) c1); simpl; auto. }
  destruct (methodType =? UpdateMethodType); [| simpl; auto].
  destruct (ServeFacts.Update_returns s st)
    as (st1 & -> & _ & _ & _ & Hms & Hobj).
  simpl. rewrite Hms, Hobj. auto.
Qed.

(** What every round of the loop keeps, the loop keeps. *)
Lemma ServeConn_loop_inv (P : state -> Prop) s :
  (forall c st, P st -> P (result_state (ServeConn_body s c st))) ->
  forall fuel c st r,
    P st -> ServeConn_loop fuel s c st = Some r -> P (result_state r).
Proof.
  intros Hbody fuel. induction fuel as [| fuel IH]; intros c st r HP;
    [discriminate |].
  simpl. pose proof (Hbody c st HP) as Hb.
  destruct (ServeConn_body s c st) as [[[] c'] st' | st']; simpl in Hb.
  - apply IH. exact Hb.
  - intros Heq. injection Heq as <-. exact Hb.
  - intros Heq. injection Heq as <-. exact Hb.
Qed.

(** With the channel empty while the flag is unset, no round waits, and so
    the loop returns. *)
Lemma ServeConn_body_returns s c st :
  quit_inv st ->
  exists ctl c' st', ServeConn_body s c st = Ret (ctl, c') st' /\ quit_inv st'.
Proof.
  intros Hinv. pose proof (ProcessFacts.ServeConn_body_quit_inv s c st Hinv) as Hq.
  revert Hq. unfold ServeConn_body.
  destruct (Decode_MethodType c) as [[methodType c1] |]; [| simpl; eauto].
  destruct (methodType =? QuitMethodType).
  { destruct (Decode_bool c1) as [[b c2] |]; [| simpl; eauto].
    destruct (ServeFacts.Quit_returns s b st Hinv) as ([a e] & st1 & -> & _).
    simpl. destruct (Encode (GBool a) c2) as [c3 |]; [| simpl; eauto].
    destruct (Encode (GString (errToString e)) c3); simpl; eauto. }
  destruct (methodType =? UpdateStateMethodType).
  { simpl. destruct (Encode (GUint (updateState st)) c1); simpl; eauto. }
  destruct (methodType =? UpdateMethodType); [| simpl; eauto].
  destruct (ServeFacts.Update_returns s st) as (st1 & -> & _). simpl. eauto.
Qed.

Lemma ServeConn_loop_returns fuel s c st :
  quit_inv st -> (length (reader c) < fuel)%nat ->
  exists c' st', ServeConn_loop fuel s c st = Some (Ret c' st').
Proof.
  revert c st. induction fuel as [| fuel IH]; intros c st Hinv Hlen; [lia |].
  simpl. destruct (ServeConn_body_returns s c st Hinv)
    as (ctl & c' & st' & Hb & Hinv').
  rewrite Hb. destruct ctl; [| eauto].
  apply IH; [exact Hinv' |].
  apply ServeFacts.ServeConn_body_LoopAgain in Hb. lia.
Qed.

(** X1: whatever a connection carries, when its goroutine ends the session
    is out of the registry and its events handle is nil; every other
    session is registered or not as before, with its object as it was. *)
Theorem connection_teardown service c st :
  quit_inv st ->
  exists c' st',
    IPCServerListen_goroutine service c st = Some (Ret c' st') /\
    managerServices st' !! service = None /\
    events (objects st' service) = None /\
    forall m, m <> service ->
      objects st' m = objects st m /\
      managerServices st' !! m = managerServices st !! m.
Proof.
  intros Hinv. unfold IPCServerListen_goroutine, ManagerService_ServeConn.
  destruct (ServeConn_loop_returns (S (length (reader c))) service c
              (IPCServerListen_register service st) Hinv ltac:(lia))
    as (c' & st1 & Hl).
  rewrite Hl. eexists _, _. split; [reflexivity |].
  split; [apply lookup_delete_eq |].
  split; [simpl; rewrite fn_lookup_insert; reflexivity |].
  intros m Hm.
  assert (Hk : objects st1 m = objects st m /\
               managerServices st1 !! m = managerServices st !! m).
  { apply (ServeConn_loop_inv
             (fun x => objects x m = objects st m /\
                       managerServices x !! m = managerServices st !! m)
             service) with (fuel := S (length (reader c))) (c := c)
             (st := IPCServerListen_register service st) (r := Ret c' st1).
    - intros c0 st0 [Ho Hr].
      destruct (ServeConn_body_frame service c0 st0 m) as [_ Hf].
      destruct (Hf Hm) as [Ho' Hr']. split; congruence.
    - split; [reflexivity |]. simpl. apply lookup_insert_ne. congruence.
    - exact Hl. }
  destruct Hk as [Ho Hr]. simpl. split.
  - rewrite fn_lookup_insert_ne by congruence. exact Ho.
  - rewrite lookup_delete_ne by congruence. exact Hr.
Qed.


(** X3: a session without a token can only read: whatever its connection
    carries, [ServeConn] returns and leaves the whole state of the process
    exactly as it found it. *)
Theorem unprivileged_session_changes_nothing s c st :
  elevatedToken (objects st s) = 0 ->
  exists c', ManagerService_ServeConn s c st = Some (Ret c' st).
Proof.
  intros Htok. unfold ManagerService_ServeConn.
  generalize (S (length (reader c))) (Nat.lt_succ_diag_r (length (reader c))).
  intros fuel. revert c. induction fuel as [| fuel IH]; intros c Hlen; [lia |].
  simpl.
  assert (Hbody : exists ctl c', ServeConn_body s c st = Ret (ctl, c') st).
  { unfold ServeConn_body.
    destruct (Decode_MethodType c) as [[methodType c1] |]; [| eauto].
    destruct (methodType =? QuitMethodType).
    { destruct (Decode_bool c1) as [[b c2] |]; [| eauto].
      rewrite (Quit_without_token s b st Htok). simpl.
      destruct (Encode (GBool false) c2) as [c3 |]; [| eauto].
      destruct (Encode _ c3); eauto. }
    destruct (methodType =? UpdateStateMethodType).
    { simpl. destruct (Encode (GUint (updateState st)) c1); eauto. }
    destruct (methodType =? UpdateMethodType); [| eauto].
    unfold ManagerService_Update. rewrite Htok. simpl. eauto. }
  destruct Hbody as (ctl & c' & Hb). rewrite Hb.
  destruct ctl; [| eauto].
  apply IH. apply ServeFacts.ServeConn_body_LoopAgain in Hb. lia.
Qed.

Lemma relay_not_last dp rest st :
  Complete dp = false -> Error dp = None ->
  exists st1,
    IPCServerNotifyUpdateProgress dp st = Ret tt st1 /\
    relay (dp :: rest) st = relay rest st1 /\
    trace st1 = trace st ++ [progressEvent dp].
Proof.
  intros Hc He. simpl. unfold IPCServerNotifyUpdateProgress.
  match goal with |- context [notifyAll ?nt ?a ?i st] =>
    destruct (NotifyFacts.notifyAll_spec nt a i st)
      as (st1 & Hret & _ & Htr & _) end.
  exists st1. rewrite Hret. simpl. rewrite Hc.
  rewrite (bool_decide_eq_false_2 (Error dp <> None)) by (rewrite He; tauto).
  simpl. auto.
Qed.

(** X6: the relay that Update starts notifies every progress value up to
    and with the first that is complete or carries an error, in their
    order, and then ends: what the channel delivers after that is not
    notified. *)
Theorem relay_stops_at_last_progress before dp after st :
  Forall (fun d => Complete d = false /\ Error d = None) before ->
  last_progress dp ->
  exists st',
    relay (before ++ dp :: after) st = Ret tt st' /\
    trace st' = trace st ++ (progressEvent <$> (before ++ [dp])).
Proof.
  intros Hbefore Hlast. revert st.
  induction Hbefore as [| d rest [Hc He] _ IH]; intros st.
  - simpl. unfold IPCServerNotifyUpdateProgress.
    match goal with |- context [notifyAll ?nt ?a ?i st] =>
      destruct (NotifyFacts.notifyAll_spec nt a i st)
        as (st1 & Hret & _ & Htr & _) end.
    rewrite Hret. simpl.
    assert (Hstop : Complete dp || bool_decide (Error dp <> None) = true).
    { destruct Hlast as [-> | Herr]; [reflexivity |].
      rewrite (bool_decide_eq_true_2 _ Herr). apply orb_true_r. }
    rewrite Hstop. exists st1. split; [reflexivity | exact Htr].
  - destruct (relay_not_last d (rest ++ dp :: after) st Hc He)
      as (st1 & _ & Hrel & Htr1).
    destruct (IH st1) as (st' & Hr & Htr).
    exists st'. split.
    + change ((d :: rest) ++ dp :: after) with (d :: rest ++ dp :: after).
      rewrite Hrel. exact Hr.
    + rewrite Htr, Htr1, <- app_assoc. reflexivity.
Qed.

(** X7: a Quit request takes effect before its response is encoded: when
    the writer is already broken, the elevated session's Quit still flips
    the flag, takes the session out and signals the shutdown channel;
    nothing is written and [ServeConn] returns. *)
Theorem Quit_takes_effect_on_broken_writer s c b rest st :
  elevatedToken (objects st s) <> 0 ->
  haveQuit st = 0 -> quitManagersChan st = 0%nat ->
  reader c = GInt QuitMethodType :: GBool b :: rest ->
  writable c = Some 0%nat ->
  exists c' st',
    ManagerService_ServeConn s c st = Some (Ret c' st') /\
    written c' = written c /\
    haveQuit st' = 1 /\
    quitManagersChan st' = 1%nat /\
    managerServices st' !! s = None.
Proof.
  intros Htok Hq Hc Hrd Hw.
  unfold ManagerService_ServeConn. rewrite Hrd.
  cbn [length ServeConn_loop]. unfold ServeConn_body, Decode_MethodType.
  rewrite Hrd, Z.eqb_refl. unfold Decode_bool. cbn [reader].
  rewrite (QuitFacts.Quit_first s b st Htok Hq Hc). cbn [bind].
  unfold Encode. cbn [writable]. rewrite Hw.
  eexists _, _. split; [reflexivity |].
  repeat split; try reflexivity. simpl. apply lookup_delete_eq.
Qed.




End WithTypes.

End ServerFacts.

(** ** The update scheduler over any run of check results *)

Module SchedulerRunFacts.
Import Time Managers Server.
Local Open Scope Z_scope.

Ltac widen :=
  unfold within, Hour, Minute, Second, Millisecond, Microsecond, Nanosecond
    in *; lia.

Section WithTypes.
Context `{IpcTypes}.

(** One round: a check, and then either the one notification, if nothing
    was notified yet and the result is a found update, or one sleep. *)
Lemma body_cases h res noError didNotify st :
  exists noError' st' e,
    checkForUpdates_body h res noError didNotify st
    = Ret (noError', didNotify || is_found res) st' /\
    trace st' = trace st ++ [EvCheckForUpdate; e] /\
    ((didNotify = false /\ is_found res = true /\
      e = EvNotifyAll UpdateFoundNotificationType false
                      [GUint UpdateStateFoundUpdate] /\
      updateState st' = UpdateStateFoundUpdate)
     \/
     ((didNotify = true \/ is_found res = false) /\
      updateState st' = updateState st /\
      exists d, e = EvSleep d /\ within d (Minute * 4) (Hour + Minute * 3))).
Proof.
  destruct didNotify.
  - destruct (SchedulerFacts.body_hourly h res noError true st
                (or_introl eq_refl)) as (st' & d & Hb & Htr & Hd & Hus).
    exists noError, st', (EvSleep d). split; [exact Hb |].
    split; [exact Htr |]. right. split; [auto |]. split; [exact Hus |].
    exists d. split; [reflexivity | widen].
  - destruct (err res) as [e |] eqn:Herr.
    + destruct (SchedulerFacts.body_error h res noError st
                  ltac:(rewrite Herr; discriminate))
        as (st' & d & Hb & Htr & Hd & Hus).
      assert (Hnf : is_found res = false)
        by (unfold is_found; rewrite Herr; reflexivity).
      exists false, st', (EvSleep d). rewrite Hnf. split; [exact Hb |].
      split; [exact Htr |]. right. split; [auto |]. split; [exact Hus |].
      exists d. split; [reflexivity |]. destruct noError; widen.
    + destruct (update res) as [u |] eqn:Hupd.
      * destruct (SchedulerFacts.body_found h res noError st Herr
                    ltac:(rewrite Hupd; discriminate))
          as (st' & Hb & Hus & _ & Htr).
        assert (Hf : is_found res = true)
          by (unfold is_found; rewrite Herr, Hupd; reflexivity).
        exists noError, st', (EvNotifyAll UpdateFoundNotificationType false
                                [GUint UpdateStateFoundUpdate]).
        rewrite Hf. split; [exact Hb |]. split; [exact Htr |]. left. auto.
      * destruct (SchedulerFacts.body_hourly h res noError false st
                    (or_intror (conj Herr Hupd)))
          as (st' & d & Hb & Htr & Hd & Hus).
        assert (Hnf : is_found res = false)
          by (unfold is_found; rewrite Herr, Hupd; reflexivity).
        exists noError, st', (EvSleep d). rewrite Hnf. split; [exact Hb |].
        split; [exact Htr |]. right. split; [auto |]. split; [exact Hus |].
        exists d. split; [reflexivity | widen].
Qed.

(** Any run of the loop, from any values of its two locals. *)
Lemma loop_general h checks noError didNotify st :
  exists noError' st' t,
    checkForUpdates_loop h checks noError didNotify st
    = Ret (noError', didNotify || existsb is_found checks) st' /\
    trace st' = trace st ++ t /\
    length (filter (fun e => is_check e = true) t) = length checks /\
    filter (fun e => is_notify e = true) t
    = (if negb didNotify && existsb is_found checks
       then [EvNotifyAll UpdateFoundNotificationType false
                         [GUint UpdateStateFoundUpdate]]
       else []) /\
    updateState st'
    = (if negb didNotify && existsb is_found checks
       then UpdateStateFoundUpdate else updateState st) /\
    Forall (fun d => within d (Minute * 4) (Hour + Minute * 3)) (sleeps t) /\
    (length (sleeps t)
     + (if negb didNotify && existsb is_found checks then 1 else 0)
     = length checks)%nat.
Proof.
  revert noError didNotify st.
  induction checks as [| res rest IH]; intros noError didNotify st.
  - exists noError, st, []. simpl. rewrite orb_false_r, andb_false_r, app_nil_r.
    repeat split; constructor.
  - destruct (body_cases h res noError didNotify st)
      as (noError1 & st1 & e & Hb & Htr1 & Hcase).
    destruct (IH noError1 (didNotify || is_found res) st1)
      as (noError' & st' & t & Hl & Htr & Hc & Hn & Hus & Hsl & Hlen).
    exists noError', st', (EvCheckForUpdate :: e :: t).
    split.
    { cbn [checkForUpdates_loop]. rewrite Hb. cbn [bind]. rewrite Hl.
      cbn [existsb]. rewrite orb_assoc. reflexivity. }
    split; [rewrite Htr, Htr1, <- app_assoc; reflexivity |].
    cbn [existsb length].
    destruct Hcase as [(-> & Hf & -> & Hus1) | (Hor & Hus1 & d & -> & Hd)].
    + rewrite Hf in *. cbn [negb andb orb] in *.
      split.
      { rewrite filter_cons_True by reflexivity.
        rewrite filter_cons_False by (simpl; discriminate).
        simpl. rewrite Hc. reflexivity. }
      split.
      { rewrite filter_cons_False by (simpl; discriminate).
        rewrite filter_cons_True by reflexivity. rewrite Hn. reflexivity. }
      split; [congruence |]. unfold sleeps in *. cbn [omap list_omap].
      split; [exact Hsl | lia].
    + assert (Hpub : negb (didNotify || is_found res) && existsb is_found rest
                     = negb didNotify && (is_found res || existsb is_found rest)).
      { destruct Hor as [-> | ->]; [reflexivity |].
        rewrite orb_false_r. reflexivity. }
      rewrite Hpub in *.
      split.
      { rewrite filter_cons_True by reflexivity.
        rewrite filter_cons_False by (simpl; discriminate).
        simpl. rewrite Hc. reflexivity. }
      split.
      { rewrite !filter_cons_False by (simpl; discriminate). exact Hn. }
      split; [rewrite Hus, Hus1; reflexivity |].
      unfold sleeps in *. cbn [omap list_omap].
      split; [constructor; assumption | simpl; lia].
Qed.

(** X14: over any sequence of check results, the loop asks the checker
    once per round and publishes at most once: exactly one UpdateFound
    notification, with the found-update state, if some result is a found
    update without error, and none otherwise; the update state is set to
    found in the first case and left alone in the second. *)
Theorem loop_publishes_at_most_once h checks noError st :
  exists noError' st' t,
    checkForUpdates_loop h checks noError false st
    = Ret (noError', existsb is_found checks) st' /\
    trace st' = trace st ++ t /\
    length (filter (fun e => is_check e = true) t) = length checks /\
    filter (fun e => is_notify e = true) t
    = (if existsb is_found checks
       then [EvNotifyAll UpdateFoundNotificationType false
                         [GUint UpdateStateFoundUpdate]]
       else []) /\
    updateState st'
    = (if existsb is_found checks
       then UpdateStateFoundUpdate else updateState st).
Proof.
  destruct (loop_general h checks noError false st)
    as (noError' & st' & t & Hl & Htr & Hc & Hn & Hus & _).
  exists noError', st', t. simpl in *. auto.
Qed.


Lemma loop_official h checks noError didNotify st :
  checkForUpdates_loop (official h) checks noError didNotify st
  = checkForUpdates_loop h checks noError didNotify st.
Proof.
  revert noError didNotify st.
  induction checks as [| res rest IH]; intros noError didNotify st;
    [reflexivity |].
  cbn [checkForUpdates_loop].
  change (checkForUpdates_body (official h) res noError didNotify st)
    with (checkForUpdates_body h res noError didNotify st).
  destruct (checkForUpdates_body h res noError didNotify st)
    as [[noError' didNotify'] st1 | st1]; simpl; [apply IH | reflexivity].
Qed.

(** X12: with PANGOLIN_ALLOW_DEV_UPDATES set to 1, a build that is not
    official is scheduled exactly as an official one: same sleeps, same
    checks, same notifications, same final state. *)
Theorem dev_override_runs_as_official h checks st :
  IsRunningOfficialVersion h = false ->
  Getenv_PANGOLIN_ALLOW_DEV_UPDATES h = "1"%string ->
  checkForUpdates h checks st = checkForUpdates (official h) checks st.
Proof.
  intros Hoff Henv. unfold checkForUpdates.
  rewrite Hoff. cbn [official IsRunningOfficialVersion
                     Getenv_PANGOLIN_ALLOW_DEV_UPDATES StartedAtBoot negb].
  rewrite Henv. cbn [String.eqb Ascii.eqb Bool.eqb negb].
  rewrite loop_official.
  destruct (StartedAtBoot h); reflexivity.
Qed.

(** X13: a service that was started at boot, on an official build or with
    the override, sleeps once, within 2 to 5 minutes, before anything
    else: all its checks come after that sleep. *)
Theorem boot_jitter_before_first_check h checks st :
  IsRunningOfficialVersion h = true \/
  Getenv_PANGOLIN_ALLOW_DEV_UPDATES h = "1"%string ->
  StartedAtBoot h = true ->
  exists d noError didNotify st' t,
    checkForUpdates h checks st = Ret (SchedLooping noError didNotify) st' /\
    trace st' = trace st ++ EvSleep d :: t /\
    within d (Minute * 2) (Minute * 5) /\
    length (filter (fun e => is_check e = true) t) = length checks.
Proof.
  intros Hrun Hboot.
  destruct (SchedulerFacts.jitterSleep_spec h (Minute * 2) (Minute * 5) st)
    as (d & Hd & Htr1 & _); try SchedulerFacts.int64_side.
  destruct (loop_general h checks true false
              (jitterSleep h (Minute * 2) (Minute * 5) st))
    as (noError' & st' & t & Hl & Htr & Hc & _).
  exists d, noError', (false || existsb is_found checks), st', t.
  split.
  { unfold checkForUpdates. rewrite Hboot, Hl. cbn [bind].
    destruct Hrun as [-> | ->]; [reflexivity |].
    destruct (negb (IsRunningOfficialVersion h)); reflexivity. }
  split; [rewrite Htr, Htr1, <- app_assoc; reflexivity |].
  split; assumption.
Qed.

End WithTypes.

Section WithCollaborators.
Context `{IpcTypes} `{Collaborators}.

(** X11: what a session is told when it asks: once a run of the loop has
    met a found update, an UpdateState request of any session, on a writer
    that takes it, is answered with the found-update state, and the loop
    of [ServeConn] goes on. *)
Theorem UpdateState_after_found h checks noError st s rest w :
  UpdateStateMethodType <> QuitMethodType ->
  existsb is_found checks = true ->
  exists noError' st',
    checkForUpdates_loop h checks noError false st = Ret (noError', true) st' /\
    ServeConn_body s (mkConn (GInt UpdateStateMethodType :: rest) w None) st'
    = Ret (LoopAgain,
           mkConn rest (w ++ [GUint UpdateStateFoundUpdate]) None) st'.
Proof.
  intros Hne Hfound.
  destruct (loop_general h checks noError false st)
    as (noError' & st' & t & Hl & _ & _ & _ & Hus & _).
  rewrite Hfound in *. simpl in Hl, Hus.
  exists noError', st'. split; [exact Hl |].
  unfold ServeConn_body, Decode_MethodType. cbn [reader written writable].
  destruct (Z.eqb_spec UpdateStateMethodType QuitMethodType) as [|_];
    [contradiction |].
  rewrite Z.eqb_refl. unfold ManagerService_UpdateState. cbn [bind].
  rewrite Hus. reflexivity.
Qed.

End WithCollaborators.

(** X16: a range of less than a millisecond gets no jitter: the sleep is
    [min] itself, whatever the random word; so jitterSleep(d, d) sleeps
    [d]. *)
Theorem jitterSleep_without_jitter h min max st :
  in_int64 min -> in_int64 max -> min <= max ->
  max - min + 1 < Millisecond ->
  trace (jitterSleep h min max st) = trace st ++ [EvSleep min].
Proof.
  intros Hmin Hmax Hle Hsmall.
  assert (Hms : Millisecond = 1000000) by reflexivity.
  assert (Hr63 : max - min < 2 ^ 63 - 1) by (rewrite Hms in *; lia).
  assert (Hspan : jitterSpan min max = 0).
  { rewrite JitterFacts.jitterSpan_eq by assumption.
    rewrite Z.div_small by lia. reflexivity. }
  unfold jitterSleep. simpl.
  rewrite JitterFacts.jitterDuration_fastrandn by assumption.
  rewrite Hspan, TimeFacts.fastrandn_zero. do 3 f_equal. lia.
Qed.

End SchedulerRunFacts.

(** ** Package services *)

Module ServicesFacts.
Import Time Managers.
Local Open Scope Z_scope.

(** X17: the answer of StartedAtBoot is made once: whatever the operating
    system says at the first call decides, and every later call returns
    the same answer without a change of state, also when the operating
    system would by then say something else. *)
Theorem StartedAtBoot_decided_once os1 os2 b :
  Services.StartedAtBoot os2 (Services.StartedAtBoot os1 b).2
  = Services.StartedAtBoot os1 b /\
  Services.startedAtBootOnce (Services.StartedAtBoot os1 b).2 = true.
Proof.
  unfold Services.StartedAtBoot.
  destruct (Services.startedAtBootOnce b) eqn:Hdone; simpl.
  - rewrite Hdone. auto.
  - auto.
Qed.

(** X18: asked for the first time, StartedAtBoot says yes in two cases
    only: the start reason was read and has its automatic or its
    delayed-automatic bit, or reading it failed with ERROR_PROC_NOT_FOUND
    and the machine is up for less than ten minutes; and never when the
    process is known not to be a Windows service. *)
Theorem StartedAtBoot_first_answer os :
  (Services.StartedAtBoot os (Services.mkBoot false false)).1 = true <->
  Services.IsWindowsService os <> (false, None) /\
  ((Services.DynamicStartReason os).2 = None /\
   (Z.testbit (Services.DynamicStartReason os).1 1
    || Z.testbit (Services.DynamicStartReason os).1 4) = true
   \/
   (Services.DynamicStartReason os).2 = Some Services.ERROR_PROC_NOT_FOUND /\
   Services.DurationSinceBoot os < Minute * 10).
Proof.
  assert (Hbit : forall r k, 0 <= k ->
            negb (Z.land r (2 ^ k) =? 0) = Z.testbit r k).
  { intros r k Hk.
    assert (Hland : Z.land r (2 ^ k) = if Z.testbit r k then 2 ^ k else 0).
    { apply Z.bits_inj'. intros n Hn. rewrite Z.land_spec.
      destruct (Z.eq_dec n k) as [-> | Hne].
      - rewrite Z.pow2_bits_true by lia.
        destruct (Z.testbit r k); [rewrite Z.pow2_bits_true by lia |
                                   rewrite Z.bits_0]; reflexivity.
      - rewrite Z.pow2_bits_false by lia. rewrite andb_false_r.
        destruct (Z.testbit r k); [rewrite Z.pow2_bits_false by lia |
                                   rewrite Z.bits_0]; reflexivity. }
    rewrite Hland. destruct (Z.testbit r k); [| reflexivity].
    assert (0 < 2 ^ k) by (apply Z.pow_pos_nonneg; lia).
    destruct (Z.eqb_spec (2 ^ k) 0); [lia | reflexivity]. }
  unfold Services.StartedAtBoot, Services.StartedAtBoot_do. simpl.
  destruct (Services.IsWindowsService os) as [isService err1].
  destruct (Services.DynamicStartReason os) as [reason err2]. simpl.
  change Services.StartReasonAuto with (2 ^ 1).
  change Services.StartReasonDelayedAuto with (2 ^ 4).
  rewrite !Hbit by lia.
  destruct err1 as [e1 |]; simpl.
  - destruct err2 as [e2 |].
    + unfold Services.errors_Is.
      destruct (decide (e2 = Services.ERROR_PROC_NOT_FOUND)) as [-> | Hne].
      * rewrite bool_decide_eq_true_2 by reflexivity.
        rewrite Z.ltb_lt. split.
        -- intros Hlt. split; [discriminate | right; auto].
        -- intros [_ [[Hd _] | [_ Hlt]]]; [discriminate | exact Hlt].
      * rewrite bool_decide_eq_false_2 by exact Hne. split; [discriminate |].
        intros [_ [[Hd _] | [Heq _]]]; [discriminate | congruence].
    + split.
      * intros Hb. split; [discriminate | left; auto].
      * intros [_ [[_ Hb] | [Hd _]]]; [exact Hb | discriminate].
  - destruct isService; simpl.
    + destruct err2 as [e2 |].
      * unfold Services.errors_Is.
        destruct (decide (e2 = Services.ERROR_PROC_NOT_FOUND)) as [-> | Hne].
        -- rewrite bool_decide_eq_true_2 by reflexivity.
           rewrite Z.ltb_lt. split.
           ++ intros Hlt. split; [discriminate | right; auto].
           ++ intros [_ [[Hd _] | [_ Hlt]]]; [discriminate | exact Hlt].
        -- rewrite bool_decide_eq_false_2 by exact Hne. split; [discriminate |].
           intros [_ [[Hd _] | [Heq _]]]; [discriminate | congruence].
      * split.
        -- intros Hb. split; [discriminate | left; auto].
        -- intros [_ [[_ Hb] | [Hd _]]]; [exact Hb | discriminate].
    + split; [discriminate |]. intros [Hne _]. exfalso. apply Hne. reflexivity.
Qed.

End ServicesFacts.

(** ** Package auth *)

Module AuthFacts.
Import Auth.




End AuthFacts.

(** ** Package config *)

Module ConfigFacts.
Import Config.


(** X22: clearing the configuration never changes the host name in use,
    whether the file could be written or not; when it could, the stored
    configuration has none of the user's fields left and the host name it
    had; when it could not, the stored configuration is the old one. *)
Theorem Clear_keeps_hostname written cm :
  GetHostname (Clear written cm).2 = GetHostname cm /\
  (Clear written cm).1 = written /\
  (written = true ->
   exists c, GetConfig (Clear written cm).2 = Some c /\
     UserId c = None /\ Email c = None /\ OrgId c = None /\
     Username c = None /\ Name c = None /\
     Hostname c = (c0 ← config cm; Hostname c0)) /\
  (written = false -> (Clear written cm).2 = cm).
Proof.
  unfold Clear, save, GetHostname, GetConfig. destruct written; simpl.
  - split.
    + destruct (config cm) as [c |]; [| reflexivity].
      destruct (Hostname c); reflexivity.
    + split; [reflexivity |]. split; [| discriminate].
      intros _. eexists. split; [reflexivity |]. simpl.
      repeat split; try reflexivity.
      destruct (config cm) as [c |]; [| reflexivity].
      simpl. destruct (Hostname c); reflexivity.
  - split; [reflexivity |]. split; [reflexivity |].
    split; [discriminate | reflexivity].
Qed.

End ConfigFacts.

(** ** Package secrets *)

Module SecretsFacts.
Import Secrets.

(** What a save does to the store, whether it succeeds or not: two calls;
    no other key is touched; it succeeds exactly when the second call, the
    write, does not fail, and then the key holds the value; when the write
    fails, the key holds what the delete before it has left. *)
Lemma SaveSecret_spec fault sm key value k :
  exists ok k1,
    SaveSecret fault sm key value k = (ok, k1) /\
    calls k1 = S (S (calls k)) /\
    (forall other, other <> (service sm, key) ->
       items k1 !! other = items k !! other) /\
    (ok = true <-> fault (S (calls k)) = None) /\
    (ok = true -> items k1 !! (service sm, key) = Some value) /\
    (ok = false -> fault (calls k) = None ->
       items k1 !! (service sm, key) = None).
Proof.
  unfold SaveSecret, DeleteSecret, keyring_Delete, keyring_Set.
  destruct (fault (calls k)) as [r0 |] eqn:Hf0; simpl.
  - destruct (fault (S (calls k))) as [r1 |] eqn:Hf1; simpl.
    + eexists _, _. split; [reflexivity |]. simpl.
      repeat split; try reflexivity; try discriminate.
    + eexists _, _. split; [reflexivity |]. simpl.
      split; [reflexivity |]. split.
      { intros other Hne. apply lookup_insert_ne. congruence. }
      split; [tauto |]. split; [| discriminate].
      intros _. apply lookup_insert_eq.
  - destruct (items k !! (service sm, key)) as [old |] eqn:Hold; simpl.
    + destruct (fault (S (calls k))) as [r1 |] eqn:Hf1; simpl.
      * eexists _, _. split; [reflexivity |]. simpl.
        split; [reflexivity |]. split.
        { intros other Hne. apply lookup_delete_ne. congruence. }
        split; [split; discriminate |]. split; [discriminate |].
        intros _ _. apply lookup_delete_eq.
      * eexists _, _. split; [reflexivity |]. simpl.
        split; [reflexivity |]. split.
        { intros other Hne. rewrite lookup_insert_ne by congruence.
          apply lookup_delete_ne. congruence. }
        split; [tauto |]. split; [| discriminate].
        intros _. apply lookup_insert_eq.
    + destruct (fault (S (calls k))) as [r1 |] eqn:Hf1; simpl.
      * eexists _, _. split; [reflexivity |]. simpl.
        split; [reflexivity |]. split; [reflexivity |].
        split; [split; discriminate |]. split; [discriminate |].
        intros _ _. exact Hold.
      * eexists _, _. split; [reflexivity |]. simpl.
        split; [reflexivity |]. split.
        { intros other Hne. apply lookup_insert_ne. congruence. }
        split; [tauto |]. split; [| discriminate].
        intros _. apply lookup_insert_eq.
Qed.

Lemma GetSecret_spec fault sm key k :
  fault (calls k) = None ->
  GetSecret fault sm key k
  = (match items k !! (service sm, key) with
     | Some v => (v, true)
     | None => (EmptyString, false)
     end, mkKeyring (items k) (S (calls k))).
Proof.
  intros Hf. unfold GetSecret, keyring_Get. rewrite Hf.
  destruct (items k !! (service sm, key)); reflexivity.
Qed.

Lemma olmIdKey_ne_olmSecretKey sm sm' userId userId' :
  olmIdKey sm userId <> olmSecretKey sm' userId'.
Proof. unfold olmIdKey, olmSecretKey. simpl. discriminate. Qed.

(** X23: the keys of the two credentials of a user never coincide, with
    each other or with those of another user: the OLM id of one user and
    the OLM secret of any user are stored under different keys, and
    different users have different keys. *)
Theorem olm_keys_never_collide sm sm' userId userId' :
  olmIdKey sm userId <> olmSecretKey sm' userId' /\
  (olmIdKey sm userId = olmIdKey sm' userId' -> userId = userId') /\
  (olmSecretKey sm userId = olmSecretKey sm' userId' -> userId = userId').
Proof.
  unfold olmIdKey, olmSecretKey. simpl.
  split; [intros Heq; discriminate |].
  split; intros Heq; injection Heq; auto.
Qed.

(** X24: a secret that was saved is read back: when SaveSecret has
    returned true, GetSecret for the same key, if its call of the store
    does not fail, returns the value saved, with true. *)
Theorem SaveSecret_then_GetSecret fault sm key value k k1 :
  SaveSecret fault sm key value k = (true, k1) ->
  fault (calls k1) = None ->
  (GetSecret fault sm key k1).1 = (value, true).
Proof.
  intros Hsave Hf.
  destruct (SaveSecret_spec fault sm key value k)
    as (ok & k1' & Heq & _ & _ & _ & Hval & _).
  rewrite Hsave in Heq. injection Heq as <- <-.
  rewrite GetSecret_spec by exact Hf. rewrite (Hval eq_refl). reflexivity.
Qed.

(** X25: a save that fails has already deleted: when the store holds a
    value for the key, the delete of SaveSecret goes through and its write
    fails, SaveSecret returns false and the old value is gone: GetSecret
    then finds nothing. *)
Theorem failed_SaveSecret_loses_old_value fault sm key value old k :
  items k !! (service sm, key) = Some old ->
  fault (calls k) = None ->
  fault (S (calls k)) <> None ->
  fault (S (S (calls k))) = None ->
  exists k1,
    SaveSecret fault sm key value k = (false, k1) /\
    (GetSecret fault sm key k1).1 = (EmptyString, false).
Proof.
  intros Hold Hf0 Hf1 Hf2.
  destruct (SaveSecret_spec fault sm key value k)
    as (ok & k1 & Heq & Hcalls & _ & Hok & _ & Hgone).
  destruct ok.
  - exfalso. apply Hf1. apply Hok. reflexivity.
  - exists k1. split; [exact Heq |].
    rewrite GetSecret_spec by (rewrite Hcalls; exact Hf2).
    rewrite (Hgone eq_refl Hf0). reflexivity.
Qed.

(** X26: a save of one key leaves every other key of the store as it was,
    whether the save succeeds or not. *)
Theorem SaveSecret_touches_its_key_only fault sm key value k other :
  other <> (service sm, key) ->
  items (SaveSecret fault sm key value k).2 !! other = items k !! other.
Proof.
  intros Hne.
  destruct (SaveSecret_spec fault sm key value k)
    as (ok & k1 & Heq & _ & Hframe & _).
  rewrite Heq. simpl. apply Hframe. exact Hne.
Qed.

(** X27: credentials that were saved are there: when SaveOlmCredentials
    has returned true and the store does not fail afterwards,
    HasOlmCredentials returns true, and GetOlmId and GetOlmSecret return
    the id and the secret that were saved. *)
Theorem SaveOlmCredentials_then_has fault sm userId olmId secret k k1 :
  SaveOlmCredentials fault sm userId olmId secret k = (true, k1) ->
  (forall n, calls k1 <= n -> fault n = None) ->
  (HasOlmCredentials fault sm userId k1).1 = true /\
  (GetOlmId fault sm userId k1).1 = (olmId, true) /\
  (GetOlmSecret fault sm userId k1).1 = (secret, true).
Proof.
  intros Hsave Hfault. unfold SaveOlmCredentials in Hsave.
  destruct (SaveSecret_spec fault sm (olmIdKey sm userId) olmId k)
    as (ok1 & ka & Heq1 & _ & _ & _ & Hval1 & _).
  rewrite Heq1 in Hsave.
  destruct (SaveSecret_spec fault sm (olmSecretKey sm userId) secret ka)
    as (ok2 & kb & Heq2 & _ & Hframe2 & _ & Hval2 & _).
  rewrite Heq2 in Hsave. injection Hsave as Hok <-.
  apply andb_true_iff in Hok as [-> ->].
  assert (Hid : items kb !! (service sm, olmIdKey sm userId) = Some olmId).
  { rewrite Hframe2; [apply Hval1; reflexivity |].
    intros Heq.
    assert (Hk : olmIdKey sm userId = olmSecretKey sm userId) by congruence.
    exact (olmIdKey_ne_olmSecretKey sm sm userId userId Hk). }
  assert (Hsec : items kb !! (service sm, olmSecretKey sm userId) = Some secret)
    by (apply Hval2; reflexivity).
  assert (Hget1 : GetOlmId fault sm userId kb
                  = ((olmId, true), mkKeyring (items kb) (S (calls kb)))).
  { unfold GetOlmId. rewrite GetSecret_spec by (apply Hfault; lia).
    rewrite Hid. reflexivity. }
  assert (Hget2 : forall k', items k' = items kb -> calls kb <= calls k' ->
            (GetOlmSecret fault sm userId k').1 = (secret, true)).
  { intros k' Hit Hc. unfold GetOlmSecret.
    rewrite GetSecret_spec by (apply Hfault; lia).
    rewrite Hit, Hsec. reflexivity. }
  split; [| split].
  - unfold HasOlmCredentials. rewrite Hget1.
    pose proof (Hget2 (mkKeyring (items kb) (S (calls kb))) eq_refl
                  ltac:(simpl; lia)) as Hg.
    destruct (GetOlmSecret fault sm userId
                (mkKeyring (items kb) (S (calls kb)))) as [[v b] k'].
    simpl in Hg. injection Hg as _ ->. reflexivity.
  - rewrite Hget1. reflexivity.
  - apply Hget2; [reflexivity | lia].
Qed.

(** X28: deleting the credentials of a user succeeds on a store that does
    not fail, whether they were there or not, and afterwards there are
    none: HasOlmCredentials returns false and GetOlmId finds nothing. *)
Theorem DeleteOlmCredentials_removes fault sm userId k :
  (forall n, calls k <= n -> fault n = None) ->
  exists k1,
    DeleteOlmCredentials fault sm userId k = (true, k1) /\
    (HasOlmCredentials fault sm userId k1).1 = false /\
    (GetOlmId fault sm userId k1).1 = (EmptyString, false) /\
    (GetOlmSecret fault sm userId k1).1 = (EmptyString, false).
Proof.
  intros Hfault.
  assert (Hdel : forall key k0, calls k <= calls k0 ->
            exists k0', DeleteSecret fault sm key k0 = (true, k0') /\
              calls k0' = S (calls k0) /\
              items k0' !! (service sm, key) = None /\
              forall other, items k0 !! other = None ->
                            items k0' !! other = None).
  { intros key k0 Hc. unfold DeleteSecret, keyring_Delete.
    rewrite (Hfault (calls k0) Hc).
    destruct (items k0 !! (service sm, key)) eqn:Hit; simpl.
    - eexists. split; [reflexivity |]. simpl. split; [reflexivity |].
      split; [apply lookup_delete_eq |].
      intros other Hnone. destruct (decide ((service sm, key) = other)) as [<- | Hne].
      + apply lookup_delete_eq.
      + rewrite lookup_delete_ne by exact Hne. exact Hnone.
    - eexists. split; [reflexivity |]. simpl. auto. }
  unfold DeleteOlmCredentials.
  destruct (Hdel (olmIdKey sm userId) k (le_n _)) as (ka & -> & Hca & Hida & _).
  destruct (Hdel (olmSecretKey sm userId) ka ltac:(lia))
    as (kb & -> & Hcb & Hsecb & Hkeep).
  exists kb. split; [reflexivity |].
  pose proof (Hkeep _ Hida) as Hidb.
  assert (Hget1 : GetOlmId fault sm userId kb
                  = ((EmptyString, false), mkKeyring (items kb) (S (calls kb)))).
  { unfold GetOlmId. rewrite GetSecret_spec by (apply Hfault; lia).
    rewrite Hidb. reflexivity. }
  split; [| split].
  - unfold HasOlmCredentials. rewrite Hget1.
    destruct (GetOlmSecret fault sm userId _) as [[v b] k']. reflexivity.
  - rewrite Hget1. reflexivity.
  - unfold GetOlmSecret. rewrite GetSecret_spec by (apply Hfault; lia).
    rewrite Hsecb. reflexivity.
Qed.

End SecretsFacts.

(** ** Package elevate *)

Module ElevateFacts.
Import Managers Elevate.

Lemma optional16_inl s p :
  optional16 s = inl p ->
  has_NUL s = false /\
  p = (if bool_decide (s <> EmptyString) then Some s else None).
Proof.
  unfold optional16, UTF16PtrFromString.
  case_bool_decide as Hne.
  - destruct (has_NUL s); [discriminate |]. intros Heq. injection Heq as <-. auto.
  - intros Heq. injection Heq as <-. split; [| reflexivity].
    destruct s; [reflexivity | discriminate].
Qed.

Lemma optional16_inr s e :
  optional16 s = inr e -> e = EINVAL /\ has_NUL s = true.
Proof.
  unfold optional16, UTF16PtrFromString.
  case_bool_decide; [| discriminate].
  destruct (has_NUL s); [| discriminate]. intros Heq. injection Heq as <-. auto.
Qed.

(** X29: ShellExecute never hands Windows a string with a NUL in it: if
    the program, the arguments or the directory holds one, it returns
    EINVAL and makes no call; otherwise it makes exactly one call, with the
    verb "runas", each string as it is, a nil pointer for each empty one,
    and returns what Windows answers. *)
Theorem ShellExecute_rejects_NUL shell program arguments directory show :
  let nul := has_NUL program || has_NUL arguments || has_NUL directory in
  let pass s := if bool_decide (s <> EmptyString) then Some s else None in
  (nul = true ->
   ShellExecute shell program arguments directory show = (Some EINVAL, None)) /\
  (nul = false ->
   let c := mkShellCall "runas" (pass program) (pass arguments)
                        (pass directory) show in
   ShellExecute shell program arguments directory show
   = (match shell c with Some e => Some (ShellError e) | None => None end,
      Some c)).
Proof.
  simpl. unfold ShellExecute.
  destruct (optional16 program) as [p16 | e1] eqn:Hp.
  2:{ apply optional16_inr in Hp as [-> Hn]. rewrite Hn. simpl.
      split; [reflexivity | discriminate]. }
  apply optional16_inl in Hp as [Hnp ->]. rewrite Hnp. simpl.
  destruct (optional16 arguments) as [a16 | e2] eqn:Ha.
  2:{ apply optional16_inr in Ha as [-> Hn]. rewrite Hn. simpl.
      split; [reflexivity | discriminate]. }
  apply optional16_inl in Ha as [Hna ->]. rewrite Hna. simpl.
  destruct (optional16 directory) as [d16 | e3] eqn:Hd.
  2:{ apply optional16_inr in Hd as [-> Hn]. rewrite Hn.
      split; [reflexivity | discriminate]. }
  apply optional16_inl in Hd as [Hnd ->]. rewrite Hnd.
  split; [discriminate |]. intros _.
  destruct (shell _); reflexivity.
Qed.

End ElevateFacts.

(** ** The further statements at concrete inputs *)

Module MoreExamples.
Import Time Managers Server.
Local Open Scope Z_scope.
Local Existing Instance exampleTypes.
Local Existing Instance exampleCollaborators.

Lemma connection_teardown_witness :
  exists c' st',
    IPCServerListen_goroutine 2%positive updateThenState (initial adminObjects)
    = Some (Ret c' st') /\
    managerServices st' !! 2%positive = None /\
    events (objects st' 2%positive) = None /\
    forall m, m <> 2%positive ->
      objects st' m = objects (initial adminObjects) m /\
      managerServices st' !! m = managerServices (initial adminObjects) !! m.
Proof.
  apply (ServerFacts.connection_teardown 2%positive updateThenState
           (initial adminObjects)).
  intros _. reflexivity.
Defined.

Lemma unprivileged_session_changes_nothing_witness :
  exists c',
    ManagerService_ServeConn 2%positive updateThenState exampleState
    = Some (Ret c' exampleState).
Proof.
  apply (ServerFacts.unprivileged_session_changes_nothing 2%positive
           updateThenState exampleState).
  reflexivity.
Defined.

Lemma Quit_silences_caller_witness :
  exists st',
    ManagerService_Quit 1%positive true adminState = Ret (false, None) st' /\
    (forall buf, deliver 1%positive buf st' = Ret tt st') /\
    (forall notificationType adminOnly ifaces,
       exists st2 new,
         notifyAll notificationType adminOnly ifaces st' = Ret tt st2 /\
         goroutines st2 = goroutines st' ++ new /\
         forall buf, GoDeliver 1%positive buf ∉ new).
Proof.
  apply (ServerFacts.Quit_silences_caller 1%positive true adminState).
  - simpl. lia.
  - reflexivity.
  - reflexivity.
Defined.

Lemma relay_stops_at_last_progress_witness :
  exists st',
    relay (progressBefore ++ progressLast :: progressAfter) exampleState
    = Ret tt st' /\
    trace st' = trace exampleState
                ++ (progressEvent <$> (progressBefore ++ [progressLast])).
Proof.
  apply (ServerFacts.relay_stops_at_last_progress progressBefore progressLast
           progressAfter exampleState).
  - repeat constructor.
  - left. reflexivity.
Defined.

Lemma Quit_takes_effect_on_broken_writer_witness :
  exists c' st',
    ManagerService_ServeConn 1%positive quitOnBrokenWriter adminState
    = Some (Ret c' st') /\
    written c' = written quitOnBrokenWriter /\
    haveQuit st' = 1 /\
    quitManagersChan st' = 1%nat /\
    managerServices st' !! 1%positive = None.
Proof.
  apply (ServerFacts.Quit_takes_effect_on_broken_writer 1%positive
           quitOnBrokenWriter true [] adminState).
  - simpl. lia.
  - reflexivity.
  - reflexivity.
  - reflexivity.
  - reflexivity.
Defined.




Lemma UpdateState_after_found_witness :
  exists noError' st',
    checkForUpdates_loop exampleHost [checkError; checkFound] true false
                         exampleState
    = Ret (noError', true) st' /\
    ServeConn_body 2%positive
      (mkConn (GInt UpdateStateMethodType :: []) [] None) st'
    = Ret (LoopAgain, mkConn [] ([] ++ [GUint UpdateStateFoundUpdate]) None) st'.
Proof.
  apply (SchedulerRunFacts.UpdateState_after_found exampleHost
           [checkError; checkFound] true exampleState 2%positive [] []).
  - discriminate.
  - reflexivity.
Defined.

Lemma dev_override_runs_as_official_witness :
  checkForUpdates devHost [checkError; checkFound] exampleState
  = checkForUpdates (official devHost) [checkError; checkFound] exampleState.
Proof.
  apply (SchedulerRunFacts.dev_override_runs_as_official devHost
           [checkError; checkFound] exampleState).
  - reflexivity.
  - reflexivity.
Defined.

Lemma boot_jitter_before_first_check_witness :
  exists d noError didNotify st' t,
    checkForUpdates bootHost [checkError; checkFound] exampleState
    = Ret (SchedLooping noError didNotify) st' /\
    trace st' = trace exampleState ++ EvSleep d :: t /\
    within d (Minute * 2) (Minute * 5) /\
    length (filter (fun e => is_check e = true) t)
    = length [checkError; checkFound].
Proof.
  apply (SchedulerRunFacts.boot_jitter_before_first_check bootHost
           [checkError; checkFound] exampleState).
  - left. reflexivity.
  - reflexivity.
Defined.

Lemma jitterSleep_without_jitter_witness :
  trace (jitterSleep exampleHost Minute Minute exampleState)
  = trace exampleState ++ [EvSleep Minute].
Proof.
  apply (SchedulerRunFacts.jitterSleep_without_jitter exampleHost Minute Minute
           exampleState).
  - unfold in_int64, Minute, Second, Millisecond, Microsecond, Nanosecond. lia.
  - unfold in_int64, Minute, Second, Millisecond, Microsecond, Nanosecond. lia.
  - lia.
  - unfold Millisecond, Microsecond, Nanosecond. lia.
Defined.

Lemma SaveSecret_then_GetSecret_witness :
  (Secrets.GetSecret Secrets.noFault Secrets.NewSecretManager "token"
     (Secrets.SaveSecret Secrets.noFault Secrets.NewSecretManager
        "token" "s3cret" Secrets.emptyKeyring).2).1
  = ("s3cret"%string, true).
Proof.
  apply (SecretsFacts.SaveSecret_then_GetSecret Secrets.noFault
           Secrets.NewSecretManager "token" "s3cret" Secrets.emptyKeyring).
  - reflexivity.
  - reflexivity.
Defined.

Lemma failed_SaveSecret_loses_old_value_witness :
  exists k1,
    Secrets.SaveSecret Secrets.secondCallFails Secrets.NewSecretManager
      "token" "new" Secrets.tokenKeyring = (false, k1) /\
    (Secrets.GetSecret Secrets.secondCallFails Secrets.NewSecretManager
       "token" k1).1 = (EmptyString, false).
Proof.
  apply (SecretsFacts.failed_SaveSecret_loses_old_value Secrets.secondCallFails
           Secrets.NewSecretManager "token" "new" "old" Secrets.tokenKeyring).
  - vm_compute. reflexivity.
  - reflexivity.
  - discriminate.
  - reflexivity.
Defined.

Lemma SaveSecret_touches_its_key_only_witness :
  Secrets.items
    (Secrets.SaveSecret Secrets.noFault Secrets.NewSecretManager
       "other" "value" Secrets.tokenKeyring).2
    !! ("Pangolin: pangolin-windows", "token")%string
  = Secrets.items Secrets.tokenKeyring
    !! ("Pangolin: pangolin-windows", "token")%string.
Proof.
  apply (SecretsFacts.SaveSecret_touches_its_key_only Secrets.noFault
           Secrets.NewSecretManager "other" "value" Secrets.tokenKeyring).
  discriminate.
Defined.

Lemma SaveOlmCredentials_then_has_witness :
  let k1 := (Secrets.SaveOlmCredentials Secrets.noFault
               Secrets.NewSecretManager "u1" "olm-1" "s3cret"
               Secrets.emptyKeyring).2 in
  (Secrets.HasOlmCredentials Secrets.noFault Secrets.NewSecretManager
     "u1" k1).1 = true /\
  (Secrets.GetOlmId Secrets.noFault Secrets.NewSecretManager "u1" k1).1
  = ("olm-1"%string, true) /\
  (Secrets.GetOlmSecret Secrets.noFault Secrets.NewSecretManager "u1" k1).1
  = ("s3cret"%string, true).
Proof.
  apply (SecretsFacts.SaveOlmCredentials_then_has Secrets.noFault
           Secrets.NewSecretManager "u1" "olm-1" "s3cret"
           Secrets.emptyKeyring).
  - reflexivity.
  - intros n _. reflexivity.
Defined.

Lemma DeleteOlmCredentials_removes_witness :
  exists k1,
    Secrets.DeleteOlmCredentials Secrets.noFault Secrets.NewSecretManager
      "u1" Secrets.tokenKeyring = (true, k1) /\
    (Secrets.HasOlmCredentials Secrets.noFault Secrets.NewSecretManager
       "u1" k1).1 = false /\
    (Secrets.GetOlmId Secrets.noFault Secrets.NewSecretManager "u1" k1).1
    = (EmptyString, false) /\
    (Secrets.GetOlmSecret Secrets.noFault Secrets.NewSecretManager "u1" k1).1
    = (EmptyString, false).
Proof.
  apply (SecretsFacts.DeleteOlmCredentials_removes Secrets.noFault
           Secrets.NewSecretManager "u1" Secrets.tokenKeyring).
  intros n _. reflexivity.
Defined.

End MoreExamples.
